(** * pymodbus: bit reading request/response messages

    A shallow embedding of [pymodbus/bit_read_message.py] and proofs about
    its request codec, response codec and [execute] methods.

    Python values are modelled as follows.
    - [int] is [Z]; a Python 2 [str] used as a byte string is [list byte].
    - An exception raised by a call is the [Raise] case of [result].
    - An object is a record of its instance attributes; a method that
      assigns to [self] returns the updated record.
    - The data-store context handed to [execute] is a record of two
      functions over an arbitrary store state, and every call into it is
      appended to a call log. *)

From Stdlib Require Import ZArith List Bool Lia.
From Stdlib.Strings Require Import Byte.
From Stdlib Require String Ascii DecimalString DecimalZ DecimalPos.
Import String.StringSyntax Ascii.AsciiSyntax.
Delimit Scope char_scope with char.
Delimit Scope string_scope with string.
Import ListNotations.
Open Scope Z_scope.

(** ** Python runtime *)

Module Py.

Inductive error : Type :=
| struct_error   (* struct.error *)
| ValueError
| IndexError.

Inductive result (A : Type) : Type :=
| Ok (a : A)
| Raise (e : error).
Arguments Ok {A} a.
Arguments Raise {A} e.

Definition bind {A B} (m : result A) (k : A -> result B) : result B :=
  match m with
  | Ok a => k a
  | Raise e => Raise e
  end.

(** [ord(c)] for a one-character byte string. *)
Definition ord (b : byte) : Z := Z.of_N (Byte.to_N b).

(** [chr(n)]: raises [ValueError] unless [n] is in [range(256)]. *)
Definition chr (n : Z) : result byte :=
  if n <? 0 then Raise ValueError
  else match Byte.of_N (Z.to_N n) with
       | Some b => Ok b
       | None => Raise ValueError
       end.

(** One ['H'] field of [struct.pack] in big-endian standard mode: an
    unsigned 16-bit integer, most significant byte first; a value
    outside [0, 65535] raises [struct.error] (the behaviour since Python
    2.7; older interpreters warned and masked the value instead). *)
Definition pack_H (v : Z) : result (list byte) :=
  if (0 <=? v) && (v <=? 65535) then
    bind (chr (v / 256)) (fun hi =>
    bind (chr (v mod 256)) (fun lo =>
    Ok [hi; lo]))
  else Raise struct_error.

(** [struct.pack('>HH', a, c)]. *)
Definition struct_pack_HH (a c : Z) : result (list byte) :=
  bind (pack_H a) (fun x =>
  bind (pack_H c) (fun y =>
  Ok (x ++ y))).

(** [struct.unpack('>HH', data)]: raises [struct.error] unless [data]
    has exactly [calcsize('>HH') = 4] bytes. *)
Definition struct_unpack_HH (data : list byte) : result (Z * Z) :=
  match data with
  | [a1; a0; c1; c0] => Ok (256 * ord a1 + ord a0, 256 * ord c1 + ord c0)
  | _ => Raise struct_error
  end.

(** ["%d" % n] for an int: the decimal digits, after a minus sign when
    [n] is negative. *)
Definition format_d (n : Z) : String.string :=
  DecimalString.NilZero.string_of_int (Z.to_int n).

(** The position a list subscript [l[i]] denotes: a negative index counts
    from the end, and an index outside [-len(l), len(l)) raises
    [IndexError]. *)
Definition list_index {A} (l : list A) (i : Z) : result nat :=
  let n := Z.of_nat (length l) in
  let j := if i <? 0 then i + n else i in
  if (j <? 0) || (n <=? j) then Raise IndexError else Ok (Z.to_nat j).

(** The list with the element at position [j] replaced. *)
Fixpoint list_update {A} (l : list A) (j : nat) (v : A) : list A :=
  match l, j with
  | [], _ => []
  | _ :: r, O => v :: r
  | x :: r, S j' => x :: list_update r j' v
  end.

(** [l[i]] *)
Definition getitem {A} (l : list A) (i : Z) : result A :=
  bind (list_index l i) (fun j =>
  match nth_error l j with
  | Some x => Ok x
  | None => Raise IndexError
  end).

(** [l[i] = v], giving the list after the assignment. *)
Definition setitem {A} (l : list A) (i : Z) (v : A) : result (list A) :=
  bind (list_index l i) (fun j => Ok (list_update l j v)).

End Py.

Import Py.

Notation "x <- m ;; k" := (Py.bind m (fun x => k))
(at level 61, m at next level, right associativity).

(** ** [class ReadBitsRequestBase] *)

Module ReadBitsRequestBase.

Record t : Type := Build { address : Z; count : Z }.

Definition init (address count : Z) : t := Build address count.

Definition encode (self : t) : result (list byte) :=
  ret <- struct_pack_HH (address self) (count self) ;;
  Ok ret.

(** [decode] assigns both attributes from one tuple; when [unpack]
    raises, [self] is left as it was. *)
Definition decode (self : t) (data : list byte) : result t :=
  p <- struct_unpack_HH data ;;
  Ok (Build (fst p) (snd p)).

Definition __str__ (self : t) : String.string :=
  String.append "ReadBitRequest("
    (String.append (format_d (address self))
       (String.append ","
          (String.append (format_d (count self)) ")"))).

End ReadBitsRequestBase.

(** ** Helpers of [pymodbus.utilities] *)

(** Modelled from the spec: a part of [packBitsToString].  The value of a
    group of bits, the first bit being the least significant. *)
Fixpoint bits_value (bs : list bool) : Z :=
  match bs with
  | [] => 0
  | b :: r => Z.b2z b + 2 * bits_value r
  end.

(** Modelled from the spec: a part of [packBitsToString].  The byte whose
    value is [v]; [v] is below 256 wherever this is used. *)
Definition byte_of_value (v : Z) : byte :=
  match Byte.of_N (Z.to_N v) with
  | Some b => b
  | None => x00
  end.

(** Modelled from the spec: a part of [packBitsToString].  The bits at
    logical positions [8k .. 8k+7], as far as they exist. *)
Definition bit_group (bits : list bool) (k : nat) : list bool :=
  firstn 8 (skipn (8 * k) bits).

(** Modelled from the spec: a part of [packBitsToString].  The number of
    data bytes, [ceil(len(bits) / 8)]. *)
Definition byte_count (bits : list bool) : nat :=
  Nat.div (length bits + 7) 8.

(** Modelled from the spec: [packBitsToString] of [pymodbus.utilities] is
    not part of the sources at hand.  Section 4.2: the bit at logical
    position p is stored at bit (p mod 8) of byte (p div 8), least
    significant bit first within each byte; positions beyond the last
    multiple of 8 are zero-padded at the high end of the final byte; there
    are ceil(len(bits)/8) bytes. *)
Definition packBitsToString (bits : list bool) : list byte :=
  map (fun k => byte_of_value (bits_value (bit_group bits k)))
      (seq 0 (byte_count bits)).

(** Modelled from the spec: a part of [unpackBitsFromString].  The eight
    bits of a byte, least significant first. *)
Definition byte_bits (b : byte) : list bool :=
  map (fun j => Z.testbit (ord b) (Z.of_nat j)) (seq 0 8).

(** Modelled from the spec: [unpackBitsFromString] of [pymodbus.utilities]
    is not part of the sources at hand.  Section 4.2: it reads the leading
    length byte and unpacks exactly that many bytes LSB-first; trailing
    padding bits remain present in the result.  The caller takes component
    0 of what it returns, so the bits come paired with the byte count.
    Indexing past the end of a Python string raises [IndexError]. *)
Definition unpackBitsFromString (data : list byte) : result (list bool * Z) :=
  match data with
  | [] => Raise IndexError
  | n :: rest =>
      if (length rest <? Z.to_nat (ord n))%nat then Raise IndexError
      else Ok (flat_map byte_bits (firstn (Z.to_nat (ord n)) rest), ord n)
  end.

(** ** [class ReadBitsResponseBase] *)

Module ReadBitsResponseBase.

Record t : Type := Build { bits : list bool }.

(** [values] is [None] or a sequence. *)
Definition init (values : option (list bool)) : t :=
  match values with
  | Some v => Build v
  | None => Build []
  end.

Definition encode (self : t) : result (list byte) :=
  let ret := packBitsToString (bits self) in
  c <- chr (Z.of_nat (length ret)) ;;
  Ok (c :: ret).

Definition decode (self : t) (data : list byte) : result t :=
  p <- unpackBitsFromString data ;;
  Ok (Build (fst p)).

(** [setBit(address, value)]: the bit list is assigned in place, and the
    object after the call is returned. *)
Definition setBit (self : t) (address : Z) (value : Z) : result t :=
  l <- setitem (bits self) address (negb (value =? 0)) ;;
  Ok (Build l).

(** [setBit(address)]: [value] takes its default, 1. *)
Definition setBit_default (self : t) (address : Z) : result t :=
  setBit self address 1.

Definition resetBit (self : t) (address : Z) : result t :=
  setBit self address 0.

Definition getBit (self : t) (address : Z) : result bool :=
  getitem (bits self) address.

End ReadBitsResponseBase.

(** ** Responses and exceptions of [pymodbus.pdu] *)

(** Modelled from the spec: the codes of [ModbusExceptions] in
    [pymodbus.pdu], which is not part of the sources at hand.  Section 7
    names the two codes this module uses. *)
Inductive ModbusExceptions : Type :=
| IllegalValue
| IllegalAddress.

(** What [execute] can return: an instance of one of the two response
    classes of this module, or an exception response.  The class of the
    latter belongs to [pymodbus.pdu]; by section 6 of the specification
    it carries a function code and an exception code. *)
Inductive ModbusResponse : Type :=
| ReadCoilsResponse_obj (r : ReadBitsResponseBase.t)
| ReadDiscreteInputsResponse_obj (r : ReadBitsResponseBase.t)
| ExceptionResponse (function_code : Z) (exception_code : ModbusExceptions).

(** Modelled from the spec: [ModbusRequest.doException] of [pymodbus.pdu]
    is not part of the sources at hand.  Section 6: an exception response
    carries [function_code | 0x80] plus an exception code. *)
Definition doException (function_code : Z) (exception : ModbusExceptions)
  : ModbusResponse :=
  ExceptionResponse (Z.lor function_code 0x80) exception.

(** ** The data-store context *)

(** A call into the context, with its three arguments. *)
Inductive ContextCall : Type :=
| Call_validate (fx address count : Z)
| Call_getValues (fx address count : Z).

(** The collaborator interface: both methods may read and change the
    store, whose state has an arbitrary type [S]. *)
Record DataStoreContext (S : Type) : Type := {
  validate : Z -> Z -> Z -> S -> bool * S;
  getValues : Z -> Z -> Z -> S -> list bool * S
}.
Arguments validate {S} _ _ _ _ _.
Arguments getValues {S} _ _ _ _ _.

(** The state [execute] runs in: the store and the calls made so far,
    oldest first. *)
Record World (S : Type) : Type := mkWorld {
  store : S;
  calls : list ContextCall
}.
Arguments mkWorld {S} _ _.
Arguments store {S} _.
Arguments calls {S} _.

Definition Exec (S A : Type) : Type := World S -> A * World S.

Definition ret {S A} (a : A) : Exec S A := fun w => (a, w).

Definition bindE {S A B} (m : Exec S A) (k : A -> Exec S B) : Exec S B :=
  fun w => let (a, w') := m w in k a w'.

Notation "x <~ m ;; k" := (bindE m (fun x => k))
  (at level 61, m at next level, right associativity).

(** [context.validate(fx, address, count)] *)
Definition call_validate {S} (context : DataStoreContext S)
  (fx address count : Z) : Exec S bool :=
  fun w =>
    let (b, s') := validate context fx address count (store w) in
    (b, mkWorld s' (calls w ++ [Call_validate fx address count])).

(** [context.getValues(fx, address, count)] *)
Definition call_getValues {S} (context : DataStoreContext S)
  (fx address count : Z) : Exec S (list bool) :=
  fun w =>
    let (v, s') := getValues context fx address count (store w) in
    (v, mkWorld s' (calls w ++ [Call_getValues fx address count])).

(** ** [class ReadCoilsResponse], [class ReadDiscreteInputsResponse] *)

Module ReadCoilsResponse.

Definition function_code : Z := 1.

Definition init (values : option (list bool)) : ReadBitsResponseBase.t :=
  ReadBitsResponseBase.init values.

(** [ReadCoilsResponse()]: the parameter takes its default, [None]. *)
Definition init_default : ReadBitsResponseBase.t := init None.

End ReadCoilsResponse.

Module ReadDiscreteInputsResponse.

Definition function_code : Z := 2.

Definition init (values : option (list bool)) : ReadBitsResponseBase.t :=
  ReadBitsResponseBase.init values.

(** [ReadDiscreteInputsResponse()]: the parameter takes its default. *)
Definition init_default : ReadBitsResponseBase.t := init None.

End ReadDiscreteInputsResponse.

(** ** [class ReadCoilsRequest], [class ReadDiscreteInputsRequest] *)

Module ReadCoilsRequest.

Definition function_code : Z := 1.

Definition init (address count : Z) : ReadBitsRequestBase.t :=
  ReadBitsRequestBase.init address count.

Definition execute {S} (self : ReadBitsRequestBase.t)
  (context : DataStoreContext S) : Exec S ModbusResponse :=
  let address := ReadBitsRequestBase.address self in
  let count := ReadBitsRequestBase.count self in
  if negb ((1 <=? count) && (count <=? 0x7d0)) then
    ret (doException function_code IllegalValue)
  else
    ok <~ call_validate context function_code address count ;;
    if negb ok then
      ret (doException function_code IllegalAddress)
    else
      values <~ call_getValues context function_code address count ;;
      ret (ReadCoilsResponse_obj (ReadCoilsResponse.init (Some values))).

End ReadCoilsRequest.

Module ReadDiscreteInputsRequest.

Definition function_code : Z := 2.

Definition init (address count : Z) : ReadBitsRequestBase.t :=
  ReadBitsRequestBase.init address count.

Definition execute {S} (self : ReadBitsRequestBase.t)
  (context : DataStoreContext S) : Exec S ModbusResponse :=
  let address := ReadBitsRequestBase.address self in
  let count := ReadBitsRequestBase.count self in
  if negb ((1 <=? count) && (count <=? 0x7d0)) then
    ret (doException function_code IllegalValue)
  else
    ok <~ call_validate context function_code address count ;;
    if negb ok then
      ret (doException function_code IllegalAddress)
    else
      values <~ call_getValues context function_code address count ;;
      ret (ReadDiscreteInputsResponse_obj
             (ReadDiscreteInputsResponse.init (Some values))).

End ReadDiscreteInputsRequest.

(** ** Requests and responses of either class *)

(** A request object together with the class it is an instance of. *)
Inductive Request : Type :=
| ReadCoilsRequest_obj (self : ReadBitsRequestBase.t)
| ReadDiscreteInputsRequest_obj (self : ReadBitsRequestBase.t).

Definition request_fields (r : Request) : ReadBitsRequestBase.t :=
  match r with
  | ReadCoilsRequest_obj self => self
  | ReadDiscreteInputsRequest_obj self => self
  end.

(** The class attribute [function_code] as seen from an instance. *)
Definition request_function_code (r : Request) : Z :=
  match r with
  | ReadCoilsRequest_obj _ => ReadCoilsRequest.function_code
  | ReadDiscreteInputsRequest_obj _ => ReadDiscreteInputsRequest.function_code
  end.

(** [request.encode()]: both classes inherit the method of the base. *)
Definition request_encode (r : Request) : result (list byte) :=
  ReadBitsRequestBase.encode (request_fields r).

(** [request.execute(context)]: the method of the instance's class. *)
Definition execute {S} (r : Request) (context : DataStoreContext S)
  : Exec S ModbusResponse :=
  match r with
  | ReadCoilsRequest_obj self => ReadCoilsRequest.execute self context
  | ReadDiscreteInputsRequest_obj self =>
      ReadDiscreteInputsRequest.execute self context
  end.

Definition response_function_code (r : ModbusResponse) : Z :=
  match r with
  | ReadCoilsResponse_obj _ => ReadCoilsResponse.function_code
  | ReadDiscreteInputsResponse_obj _ => ReadDiscreteInputsResponse.function_code
  | ExceptionResponse fc _ => fc
  end.

(** The bits of a response of one of the two response classes. *)
Definition response_bits (r : ModbusResponse) : option (list bool) :=
  match r with
  | ReadCoilsResponse_obj b => Some (ReadBitsResponseBase.bits b)
  | ReadDiscreteInputsResponse_obj b => Some (ReadBitsResponseBase.bits b)
  | ExceptionResponse _ _ => None
  end.

(** The exception code of an exception response. *)
Definition response_exception (r : ModbusResponse) : option ModbusExceptions :=
  match r with
  | ExceptionResponse _ e => Some e
  | _ => None
  end.

(** A run of [execute] from a store state, with an empty call log. *)
Definition run {S A} (m : Exec S A) (s : S) : A * World S :=
  m (mkWorld s []).

(** The response object [execute] builds from the fetched values: an
    instance of the response class that goes with the request's class. *)
Definition response_for (r : Request) (values : list bool) : ModbusResponse :=
  match r with
  | ReadCoilsRequest_obj _ =>
      ReadCoilsResponse_obj (ReadCoilsResponse.init (Some values))
  | ReadDiscreteInputsRequest_obj _ =>
      ReadDiscreteInputsResponse_obj (ReadDiscreteInputsResponse.init (Some values))
  end.

(** ** A data store for the examples *)

(** A block of bits starting at address 0, the same for every function
    code: [validate] accepts the ranges that lie inside the block and
    [getValues] returns the slice; neither changes the store. *)
Definition block_context : DataStoreContext (list bool) := {|
  validate := fun _ address count s =>
    ((0 <=? address) && (address + count <=? Z.of_nat (length s)), s);
  getValues := fun _ address count s =>
    (firstn (Z.to_nat count) (skipn (Z.to_nat address) s), s)
|}.

(** A store holding [1,0,1,1,0] at addresses 10 to 14. *)
Definition example_store : list bool :=
  repeat false 10 ++ [true; false; true; true; false].

(** A store of 2000 bits, all off. *)
Definition large_store : list bool := repeat false 2000.

(** A store that answers every address: the bit at address [i] is
    [s i].  [validate] accepts the ranges inside the 16-bit address space
    and [getValues] returns one bit per requested address. *)
Definition table_context : DataStoreContext (Z -> bool) := {|
  validate := fun _ address count s =>
    ((0 <=? address) && (address + count <=? 65536), s);
  getValues := fun _ address count s =>
    (map (fun i => s (address + Z.of_nat i)) (seq 0 (Z.to_nat count)), s)
|}.

(** [request.decode(data)] on an instance of either class: the method of
    the base class fills in the attributes, and the object keeps its
    class. *)
Definition request_decode (r : Request) (data : list byte) : result Request :=
  match r with
  | ReadCoilsRequest_obj self =>
      self' <- ReadBitsRequestBase.decode self data ;;
      Ok (ReadCoilsRequest_obj self')
  | ReadDiscreteInputsRequest_obj self =>
      self' <- ReadBitsRequestBase.decode self data ;;
      Ok (ReadDiscreteInputsRequest_obj self')
  end.

(** ** Strings *)

(** No character of [s] is [c]. *)
Fixpoint free_of (c : Ascii.ascii) (s : String.string) : Prop :=
  match s with
  | String.EmptyString => True
  | String.String a r => a <> c /\ free_of c r
  end.

(** * Proofs *)

(** ** Bytes *)

Lemma chr_ok (n : Z) :
  0 <= n <= 255 -> exists b, chr n = Ok b /\ ord b = n.
Proof.
  intros Hn. unfold chr.
  destruct (Z.ltb_spec n 0) as [Hneg | _]; [lia |].
  destruct (Byte.of_N (Z.to_N n)) as [b |] eqn:E.
  - exists b. split; [reflexivity |].
    apply Byte.to_of_N in E. unfold ord. rewrite E. lia.
  - apply Byte.of_N_None_iff in E. lia.
Qed.

Lemma ord_byte_of_value (v : Z) : 0 <= v <= 255 -> ord (byte_of_value v) = v.
Proof.
  intros Hv. unfold byte_of_value.
  destruct (chr_ok v Hv) as (b & Hc & Hb). unfold chr in Hc.
  destruct (Z.ltb_spec v 0); [lia |].
  destruct (Byte.of_N (Z.to_N v)); congruence.
Qed.

(** ** The request codec *)

Lemma pack_H_ok (v : Z) :
  0 <= v <= 65535 ->
  exists hi lo, pack_H v = Ok [hi; lo] /\ ord hi = v / 256 /\ ord lo = v mod 256.
Proof.
  intros Hv. unfold pack_H.
  replace ((0 <=? v) && (v <=? 65535)) with true
    by (symmetry; apply andb_true_iff; split; apply Z.leb_le; lia).
  assert (H1 : 0 <= v / 256 <= 255).
  { split; [apply Z.div_pos; lia |].
    assert (v / 256 < 256) by (apply Z.div_lt_upper_bound; lia). lia. }
  assert (H2 : 0 <= v mod 256 <= 255).
  { pose proof (Z.mod_pos_bound v 256). lia. }
  destruct (chr_ok _ H1) as (hi & Ehi & Hhi).
  destruct (chr_ok _ H2) as (lo & Elo & Hlo).
  exists hi, lo. rewrite Ehi, Elo. simpl. auto.
Qed.

Lemma unpack_length (data : list byte) :
  struct_unpack_HH data = Raise struct_error <-> length data <> 4%nat.
Proof.
  destruct data as [| a [| b [| c [| d [| e l]]]]]; simpl; split;
    intros H; try reflexivity; try discriminate; try lia; congruence.
Qed.

(** C5.  For every address in [0, 65535] and count in [1, 65535], the
    request [encode] returns exactly four bytes, the address first and the
    count second, each with its high byte first, and [decode] of those
    bytes, on a request object in any prior state, gives back the same
    address and count. *)
Theorem request_encode_decode (a c : Z) (self0 : ReadBitsRequestBase.t) :
  0 <= a <= 65535 ->
  1 <= c <= 65535 ->
  exists b0 b1 b2 b3,
    ReadBitsRequestBase.encode (ReadBitsRequestBase.init a c)
      = Ok [b0; b1; b2; b3]
    /\ ord b0 = a / 256 /\ ord b1 = a mod 256
    /\ ord b2 = c / 256 /\ ord b3 = c mod 256
    /\ ReadBitsRequestBase.decode self0 [b0; b1; b2; b3]
       = Ok (ReadBitsRequestBase.init a c).
Proof.
  intros Ha Hc.
  destruct (pack_H_ok a) as (b0 & b1 & Ea & H0 & H1); [lia |].
  destruct (pack_H_ok c) as (b2 & b3 & Ec & H2 & H3); [lia |].
  exists b0, b1, b2, b3.
  unfold ReadBitsRequestBase.encode, ReadBitsRequestBase.decode,
    ReadBitsRequestBase.init, struct_pack_HH, struct_unpack_HH.
  cbn [ReadBitsRequestBase.address ReadBitsRequestBase.count].
  rewrite Ea, Ec. cbn [bind app fst snd].
  rewrite H0, H1, H2, H3.
  repeat split.
  f_equal. f_equal.
  - symmetry. apply Z.div_mod. lia.
  - symmetry. apply Z.div_mod. lia.
Qed.

Lemma request_encode_decode_witness :
  exists b0 b1 b2 b3,
    ReadBitsRequestBase.encode (ReadBitsRequestBase.init 10 5)
      = Ok [b0; b1; b2; b3]
    /\ ord b0 = 10 / 256 /\ ord b1 = 10 mod 256
    /\ ord b2 = 5 / 256 /\ ord b3 = 5 mod 256
    /\ ReadBitsRequestBase.decode (ReadBitsRequestBase.init 0 0)
         [b0; b1; b2; b3]
       = Ok (ReadBitsRequestBase.init 10 5).
Proof.
  apply (request_encode_decode 10 5 (ReadBitsRequestBase.init 0 0)); lia.
Defined.

(** C6.  The request [decode] raises (the error of [struct.unpack], which
    the specification calls a FrameError) if and only if its input is not
    exactly four bytes long.  On four bytes it succeeds whatever they
    hold, storing the two big-endian values as they are: every pair of
    16-bit values, a count of 0 or above 2000 included, is the outcome of
    decoding some input. *)
Theorem request_decode_length_only
  (self : ReadBitsRequestBase.t) (data : list byte) :
  (ReadBitsRequestBase.decode self data = Raise struct_error
     <-> length data <> 4%nat)
  /\ (forall e, ReadBitsRequestBase.decode self data = Raise e
                -> e = struct_error)
  /\ (forall b0 b1 b2 b3,
        ReadBitsRequestBase.decode self [b0; b1; b2; b3]
        = Ok (ReadBitsRequestBase.Build (256 * ord b0 + ord b1)
                                        (256 * ord b2 + ord b3)))
  /\ (forall a c, 0 <= a <= 65535 -> 0 <= c <= 65535 ->
        exists d, length d = 4%nat
          /\ ReadBitsRequestBase.decode self d
             = Ok (ReadBitsRequestBase.Build a c)).
Proof.
  unfold ReadBitsRequestBase.decode.
  split; [| split; [| split]].
  - rewrite <- unpack_length.
    destruct (struct_unpack_HH data); simpl; split; congruence.
  - intros e.
    destruct data as [| a [| b [| c [| d [| x l]]]]]; simpl; congruence.
  - reflexivity.
  - intros a c Ha Hc.
    destruct (pack_H_ok a Ha) as (b0 & b1 & _ & H0 & H1).
    destruct (pack_H_ok c Hc) as (b2 & b3 & _ & H2 & H3).
    exists [b0; b1; b2; b3]. split; [reflexivity |].
    unfold struct_unpack_HH. cbn [bind fst snd].
    rewrite H0, H1, H2, H3. f_equal. f_equal.
    + symmetry. apply Z.div_mod. lia.
    + symmetry. apply Z.div_mod. lia.
Qed.

Lemma request_decode_length_only_witness :
  exists d, length d = 4%nat
    /\ ReadBitsRequestBase.decode (ReadBitsRequestBase.init 7 7) d
       = Ok (ReadBitsRequestBase.Build 65535 0).
Proof.
  apply (request_decode_length_only (ReadBitsRequestBase.init 7 7) []); lia.
Defined.

(** C9.  A [ReadCoilsRequest] and a [ReadDiscreteInputsRequest] built from
    the same address and count hold the same attributes and encode to the
    same result, whatever the two values are; for unsigned 16-bit values
    that result is a body of four bytes.  The function codes of the two
    classes are 1 and 2. *)
Theorem coils_and_discrete_inputs_encode_alike (a c : Z) :
  let rc := ReadCoilsRequest_obj (ReadCoilsRequest.init a c) in
  let rd := ReadDiscreteInputsRequest_obj (ReadDiscreteInputsRequest.init a c) in
  request_encode rc = request_encode rd
  /\ request_fields rc = request_fields rd
  /\ request_function_code rc = 1
  /\ request_function_code rd = 2
  /\ (0 <= a <= 65535 -> 0 <= c <= 65535 ->
      exists body, request_encode rc = Ok body
                   /\ request_encode rd = Ok body
                   /\ length body = 4%nat).
Proof.
  simpl. repeat split.
  intros Ha Hc.
  destruct (pack_H_ok a Ha) as (b0 & b1 & Ea & _).
  destruct (pack_H_ok c Hc) as (b2 & b3 & Ec & _).
  exists [b0; b1; b2; b3].
  unfold request_encode, ReadBitsRequestBase.encode, struct_pack_HH; simpl.
  rewrite Ea, Ec. simpl. auto.
Qed.

Lemma coils_and_discrete_inputs_encode_alike_witness :
  exists body,
    request_encode (ReadCoilsRequest_obj (ReadCoilsRequest.init 10 5))
      = Ok body
    /\ request_encode
         (ReadDiscreteInputsRequest_obj (ReadDiscreteInputsRequest.init 10 5))
       = Ok body
    /\ length body = 4%nat.
Proof.
  apply (coils_and_discrete_inputs_encode_alike 10 5); lia.
Defined.

(** ** [execute] *)

(** Both [execute] methods follow one course, with the function code and
    the response class of the request's own class. *)
Lemma execute_course {S} (r : Request) (context : DataStoreContext S)
  (w : World S) :
  let fc := request_function_code r in
  let address := ReadBitsRequestBase.address (request_fields r) in
  let count := ReadBitsRequestBase.count (request_fields r) in
  execute r context w =
    if (1 <=? count) && (count <=? 2000) then
      let w1 := mkWorld (snd (validate context fc address count (store w)))
                        (calls w ++ [Call_validate fc address count]) in
      if fst (validate context fc address count (store w)) then
        (response_for r (fst (getValues context fc address count (store w1))),
         mkWorld (snd (getValues context fc address count (store w1)))
                 (calls w1 ++ [Call_getValues fc address count]))
      else (doException fc IllegalAddress, w1)
    else (doException fc IllegalValue, w).
Proof.
  destruct r as [self | self]; cbn -[Z.leb];
    unfold ReadCoilsRequest.execute, ReadDiscreteInputsRequest.execute;
    destruct ((1 <=? ReadBitsRequestBase.count self)
              && (ReadBitsRequestBase.count self <=? 2000)); cbn;
    try reflexivity;
    unfold bindE, call_validate, call_getValues, ret;
    repeat match goal with
           | |- context [validate ?c ?f ?a ?n ?s] =>
               destruct (validate c f a n s) as [[|] ?]; cbn
           | |- context [getValues ?c ?f ?a ?n ?s] =>
               destruct (getValues c f a n s) as [? ?]; cbn
           end;
    reflexivity.
Qed.

Lemma count_check_spec (count : Z) :
  (1 <=? count) && (count <=? 2000) = true <-> 1 <= count <= 2000.
Proof.
  rewrite andb_true_iff, !Z.leb_le. tauto.
Qed.

Lemma response_for_not_exception (r : Request) (values : list bool) :
  response_exception (response_for r values) = None.
Proof. destruct r; reflexivity. Qed.

Lemma response_for_bits (r : Request) (values : list bool) :
  response_bits (response_for r values) = Some values.
Proof. destruct r; reflexivity. Qed.

Lemma response_for_function_code (r : Request) (values : list bool) :
  response_function_code (response_for r values) = request_function_code r.
Proof. destruct r; reflexivity. Qed.

Ltac case_count_check c :=
  let E := fresh "Echeck" in
  destruct ((1 <=? c) && (c <=? 2000)) eqn:E;
  [ apply count_check_spec in E
  | assert (~ 1 <= c <= 2000)
      by (rewrite <- count_check_spec; congruence) ].

(** C1.  For a request of either class and any context and store state,
    [execute] returns the IllegalValue exception response exactly when
    the count is outside [1, 2000].  When it does, no call into the
    context has been made and the store is as it was; when the count is
    inside the range, the run goes on to call [validate] first. *)
Theorem execute_count_check {S} (r : Request) (context : DataStoreContext S)
  (s : S) :
  let fc := request_function_code r in
  let address := ReadBitsRequestBase.address (request_fields r) in
  let count := ReadBitsRequestBase.count (request_fields r) in
  let out := run (execute r context) s in
  (response_exception (fst out) = Some IllegalValue <-> ~ 1 <= count <= 2000)
  /\ (~ 1 <= count <= 2000 ->
      fst out = ExceptionResponse (Z.lor fc 0x80) IllegalValue
      /\ snd out = mkWorld s [])
  /\ (1 <= count <= 2000 ->
      exists rest, calls (snd out) = Call_validate fc address count :: rest).
Proof.
  intros fc address count out. subst out. unfold run.
  rewrite execute_course. fold fc address count.
  cbn [store calls app].
  case_count_check count.
  - destruct (fst (validate context fc address count s)); cbn [fst snd calls].
    + rewrite response_for_not_exception.
      split; [split; [discriminate | tauto] |].
      split; [tauto |]. intros _. eexists. reflexivity.
    + split; [split; [discriminate | tauto] |].
      split; [tauto |]. intros _. eexists. reflexivity.
  - cbn [fst snd]. split; [split; [auto | reflexivity] |].
    split; [intros _; split; reflexivity | tauto].
Qed.

Lemma execute_count_check_witness :
  (fst (run (execute (ReadCoilsRequest_obj (ReadCoilsRequest.init 0 0))
                     block_context) large_store)
     = ExceptionResponse (Z.lor 1 0x80) IllegalValue
   /\ snd (run (execute (ReadCoilsRequest_obj (ReadCoilsRequest.init 0 0))
                        block_context) large_store)
      = mkWorld large_store [])
  /\ (fst (run (execute
                  (ReadDiscreteInputsRequest_obj
                     (ReadDiscreteInputsRequest.init 0 2001))
                  block_context) large_store)
        = ExceptionResponse (Z.lor 2 0x80) IllegalValue
      /\ snd (run (execute
                     (ReadDiscreteInputsRequest_obj
                        (ReadDiscreteInputsRequest.init 0 2001))
                     block_context) large_store)
         = mkWorld large_store [])
  /\ exists rest,
       calls (snd (run (execute
                          (ReadCoilsRequest_obj (ReadCoilsRequest.init 0 2000))
                          block_context) large_store))
       = Call_validate 1 0 2000 :: rest.
Proof.
  split; [| split].
  - apply (execute_count_check
             (ReadCoilsRequest_obj (ReadCoilsRequest.init 0 0))
             block_context large_store).
    simpl. lia.
  - apply (execute_count_check
             (ReadDiscreteInputsRequest_obj
                (ReadDiscreteInputsRequest.init 0 2001))
             block_context large_store).
    simpl. lia.
  - apply (execute_count_check
             (ReadCoilsRequest_obj (ReadCoilsRequest.init 0 2000))
             block_context large_store).
    simpl. lia.
Defined.

(** C2.  For a request of either class with a count in [1, 2000]: when
    [context.validate(function_code, address, count)] answers false,
    [execute] returns the IllegalAddress exception response, and the one
    call made into the context is that [validate]: [getValues] is not
    called, and the store is as [validate] left it. *)
Theorem execute_illegal_address {S} (r : Request)
  (context : DataStoreContext S) (s : S) :
  let fc := request_function_code r in
  let address := ReadBitsRequestBase.address (request_fields r) in
  let count := ReadBitsRequestBase.count (request_fields r) in
  let out := run (execute r context) s in
  1 <= count <= 2000 ->
  fst (validate context fc address count s) = false ->
  fst out = ExceptionResponse (Z.lor fc 0x80) IllegalAddress
  /\ calls (snd out) = [Call_validate fc address count]
  /\ (forall fx a c, ~ In (Call_getValues fx a c) (calls (snd out)))
  /\ store (snd out) = snd (validate context fc address count s).
Proof.
  intros fc address count out Hcount Hval. subst out. unfold run.
  rewrite execute_course. fold fc address count.
  cbn [store calls app].
  apply count_check_spec in Hcount. rewrite Hcount, Hval.
  cbn [fst snd calls store].
  repeat split.
  intros fx a c [H | []]. discriminate.
Qed.

Lemma execute_illegal_address_witness :
  fst (run (execute (ReadCoilsRequest_obj (ReadCoilsRequest.init 12 5))
                    block_context) example_store)
    = ExceptionResponse (Z.lor 1 0x80) IllegalAddress
  /\ calls (snd (run (execute
                        (ReadCoilsRequest_obj (ReadCoilsRequest.init 12 5))
                        block_context) example_store))
     = [Call_validate 1 12 5]
  /\ (forall fx a c,
        ~ In (Call_getValues fx a c)
             (calls (snd (run (execute
                                 (ReadCoilsRequest_obj
                                    (ReadCoilsRequest.init 12 5))
                                 block_context) example_store))))
  /\ store (snd (run (execute
                        (ReadCoilsRequest_obj (ReadCoilsRequest.init 12 5))
                        block_context) example_store))
     = snd (validate block_context 1 12 5 example_store).
Proof.
  apply (execute_illegal_address
           (ReadCoilsRequest_obj (ReadCoilsRequest.init 12 5))
           block_context example_store).
  - simpl. lia.
  - reflexivity.
Defined.

(** C3.  For a request of either class with a count in [1, 2000]: when
    [validate] answers true, [execute] returns a response that is not an
    exception response, whose bits are exactly what
    [context.getValues(function_code, address, count)] returned, called
    on the store as [validate] left it, and whose function code is that
    of the request: 1 for coils, 2 for discrete inputs. *)
Theorem execute_success {S} (r : Request) (context : DataStoreContext S)
  (s : S) :
  let fc := request_function_code r in
  let address := ReadBitsRequestBase.address (request_fields r) in
  let count := ReadBitsRequestBase.count (request_fields r) in
  let out := run (execute r context) s in
  let s1 := snd (validate context fc address count s) in
  1 <= count <= 2000 ->
  fst (validate context fc address count s) = true ->
  response_exception (fst out) = None
  /\ response_bits (fst out)
     = Some (fst (getValues context fc address count s1))
  /\ response_function_code (fst out) = fc
  /\ fc = (match r with
           | ReadCoilsRequest_obj _ => 1
           | ReadDiscreteInputsRequest_obj _ => 2
           end)
  /\ calls (snd out)
     = [Call_validate fc address count; Call_getValues fc address count].
Proof.
  intros fc address count out s1 Hcount Hval. subst out. unfold run.
  rewrite execute_course. fold fc address count.
  cbn [store calls app].
  apply count_check_spec in Hcount. rewrite Hcount, Hval.
  cbn [fst snd calls store]. fold s1.
  rewrite response_for_not_exception, response_for_bits,
    response_for_function_code.
  repeat split.
Qed.

Lemma execute_success_witness :
  response_bits
    (fst (run (execute (ReadCoilsRequest_obj (ReadCoilsRequest.init 10 5))
                       block_context) example_store))
  = Some (fst (getValues block_context 1 10 5
                 (snd (validate block_context 1 10 5 example_store)))).
Proof.
  apply (execute_success
           (ReadCoilsRequest_obj (ReadCoilsRequest.init 10 5))
           block_context example_store).
  - simpl. lia.
  - reflexivity.
Defined.

(** C4.  Let the context keep the data-store contract: [getValues] with a
    count returns exactly that many bits.  Then every response that
    [execute] produces on the success path, for a request of either
    class, has as many bits as the request's count; and with a count in
    [1, 2000] and [validate] answering true, [execute] does produce
    one. *)
Theorem execute_bits_length {S} (r : Request) (context : DataStoreContext S)
  (s : S) :
  let fc := request_function_code r in
  let address := ReadBitsRequestBase.address (request_fields r) in
  let count := ReadBitsRequestBase.count (request_fields r) in
  let out := run (execute r context) s in
  (forall fx a c st, 0 <= c ->
     Z.of_nat (length (fst (getValues context fx a c st))) = c) ->
  (forall bits, response_bits (fst out) = Some bits ->
     Z.of_nat (length bits) = count)
  /\ (1 <= count <= 2000 ->
      fst (validate context fc address count s) = true ->
      exists bits, response_bits (fst out) = Some bits
                   /\ Z.of_nat (length bits) = count).
Proof.
  intros fc address count out Hcontract. subst out. unfold run.
  rewrite execute_course. fold fc address count.
  cbn [store calls app].
  case_count_check count.
  - destruct (fst (validate context fc address count s)); cbn [fst snd store].
    + rewrite response_for_bits. split.
      * intros bits Hb. injection Hb as <-. apply Hcontract. lia.
      * intros _ _. eexists. split; [reflexivity |]. apply Hcontract. lia.
    + split; [intros bits Hb; discriminate | intros _ Hv; discriminate].
  - cbn [fst]. split; [intros bits Hb; discriminate | tauto].
Qed.

Lemma execute_bits_length_witness :
  exists bits,
    response_bits
      (fst (run (execute
                   (ReadDiscreteInputsRequest_obj
                      (ReadDiscreteInputsRequest.init 3 4))
                   table_context) Z.even))
    = Some bits
    /\ Z.of_nat (length bits) = 4.
Proof.
  apply (execute_bits_length
           (ReadDiscreteInputsRequest_obj (ReadDiscreteInputsRequest.init 3 4))
           table_context Z.even).
  - intros fx a c st Hc. simpl. rewrite length_map, length_seq. lia.
  - simpl. lia.
  - reflexivity.
Defined.

(** The scenario of the specification: address 10, count 5, the store
    holding [1,0,1,1,0] there. *)
Example execute_example :
  run (execute (ReadCoilsRequest_obj (ReadCoilsRequest.init 10 5))
               block_context) example_store
  = (ReadCoilsResponse_obj
       (ReadBitsResponseBase.Build [true; false; true; true; false]),
     mkWorld example_store [Call_validate 1 10 5; Call_getValues 1 10 5]).
Proof. reflexivity. Qed.

Example execute_example_encoded :
  ReadBitsResponseBase.encode
    (ReadBitsResponseBase.Build [true; false; true; true; false])
  = Ok [x01; x0d].
Proof. reflexivity. Qed.

Example execute_count_2000 :
  option_map (@length bool)
    (response_bits
       (fst (run (execute
                    (ReadDiscreteInputsRequest_obj
                       (ReadDiscreteInputsRequest.init 0 2000))
                    block_context) large_store)))
  = Some 2000%nat.
Proof. vm_compute. reflexivity. Qed.

(** ** Bit packing *)

Lemma bits_value_range (bs : list bool) :
  0 <= bits_value bs < 2 ^ Z.of_nat (length bs).
Proof.
  induction bs as [| b r IH]; cbn [bits_value length].
  - simpl. lia.
  - rewrite Nat2Z.inj_succ, Z.pow_succ_r by lia.
    destruct b; cbn [Z.b2z]; lia.
Qed.

Lemma testbit_bits_value (bs : list bool) (j : nat) :
  Z.testbit (bits_value bs) (Z.of_nat j) = nth j bs false.
Proof.
  revert j. induction bs as [| b r IH]; intros j; cbn [bits_value].
  - destruct j; apply Z.testbit_0_l.
  - rewrite Z.add_comm. destruct j as [| j].
    + apply Z.testbit_0_r.
    + rewrite Nat2Z.inj_succ, Z.testbit_succ_r by lia. apply IH.
Qed.

Lemma length_bit_group (bits : list bool) (k : nat) :
  (length (bit_group bits k) <= 8)%nat.
Proof. apply firstn_le_length. Qed.

Lemma nth_bit_group (bits : list bool) (k j : nat) :
  (j < 8)%nat -> nth j (bit_group bits k) false = nth (8 * k + j) bits false.
Proof.
  intros Hj. unfold bit_group. rewrite nth_firstn.
  destruct (Nat.ltb_spec j 8); [apply nth_skipn | lia].
Qed.

Lemma bit_group_value_range (bits : list bool) (k : nat) :
  0 <= bits_value (bit_group bits k) <= 255.
Proof.
  pose proof (bits_value_range (bit_group bits k)) as H.
  pose proof (length_bit_group bits k) as L.
  assert (2 ^ Z.of_nat (length (bit_group bits k)) <= 2 ^ 8)
    by (apply Z.pow_le_mono_r; lia).
  change (2 ^ 8) with 256 in *. lia.
Qed.

Lemma nth_map_seq {A} (f : nat -> A) (n k : nat) (d : A) :
  (k < n)%nat -> nth k (map f (seq 0 n)) d = f k.
Proof.
  intros Hk.
  rewrite nth_indep with (d' := f 0%nat) by (rewrite length_map, length_seq; lia).
  rewrite map_nth, seq_nth by lia. reflexivity.
Qed.

Lemma length_packBitsToString (bits : list bool) :
  length (packBitsToString bits) = byte_count bits.
Proof.
  unfold packBitsToString. rewrite length_map, length_seq. reflexivity.
Qed.

Lemma byte_count_ceil (bits : list bool) :
  (length bits <= 8 * byte_count bits < length bits + 8)%nat.
Proof.
  unfold byte_count.
  pose proof (Nat.div_mod_eq (length bits + 7) 8) as E.
  pose proof (Nat.mod_upper_bound (length bits + 7) 8) as M.
  lia.
Qed.

(** Bit [j] of packed byte [k] is the bit at logical position [8k + j],
    or zero when there is no such position. *)
Lemma packed_bit (bits : list bool) (k j : nat) :
  (k < byte_count bits)%nat -> (j < 8)%nat ->
  Z.testbit (ord (nth k (packBitsToString bits) x00)) (Z.of_nat j)
  = nth (8 * k + j) bits false.
Proof.
  intros Hk Hj. unfold packBitsToString.
  rewrite nth_map_seq by assumption.
  rewrite ord_byte_of_value by apply bit_group_value_range.
  rewrite testbit_bits_value. apply nth_bit_group. assumption.
Qed.

Lemma length_byte_bits (b : byte) : length (byte_bits b) = 8%nat.
Proof. reflexivity. Qed.

Lemma nth_unpacked (l : list byte) (k j : nat) :
  (k < length l)%nat -> (j < 8)%nat ->
  nth (8 * k + j) (flat_map byte_bits l) false
  = Z.testbit (ord (nth k l x00)) (Z.of_nat j).
Proof.
  revert k. induction l as [| b l IH]; intros k Hk Hj; cbn [length] in Hk.
  - lia.
  - cbn [flat_map]. destruct k as [| k].
    + rewrite app_nth1 by (rewrite length_byte_bits; lia).
      replace (8 * 0 + j)%nat with j by lia.
      unfold byte_bits. apply (nth_map_seq (fun i => Z.testbit (ord b) (Z.of_nat i))).
      assumption.
    + rewrite app_nth2 by (rewrite length_byte_bits; lia).
      rewrite length_byte_bits.
      replace (8 * S k + j - 8)%nat with (8 * k + j)%nat by lia.
      cbn [nth]. apply IH; lia.
Qed.

Lemma length_unpacked (l : list byte) :
  length (flat_map byte_bits l) = (8 * length l)%nat.
Proof.
  induction l as [| b l IH]; cbn [flat_map length]; [reflexivity |].
  rewrite length_app, length_byte_bits, IH. lia.
Qed.

(** Unpacking what was packed gives the bits back, followed by zeros. *)
Lemma nth_unpack_pack (bits : list bool) (p : nat) :
  nth p (flat_map byte_bits (packBitsToString bits)) false = nth p bits false.
Proof.
  destruct (Nat.lt_ge_cases p (8 * byte_count bits)) as [Hp | Hp].
  - pose proof (Nat.div_mod_eq p 8) as E.
    pose proof (Nat.mod_upper_bound p 8) as M.
    assert (Hk : (p / 8 < byte_count bits)%nat) by lia.
    rewrite E at 1.
    rewrite nth_unpacked
      by (rewrite ?length_packBitsToString; lia).
    rewrite packed_bit by lia. f_equal. lia.
  - pose proof (byte_count_ceil bits).
    rewrite !nth_overflow;
      rewrite ?length_unpacked, ?length_packBitsToString; lia.
Qed.

Lemma unpack_pack_prefix (bits : list bool) :
  firstn (length bits) (flat_map byte_bits (packBitsToString bits)) = bits.
Proof.
  pose proof (byte_count_ceil bits) as C.
  apply nth_ext with (d := false) (d' := false).
  - rewrite length_firstn, length_unpacked, length_packBitsToString. lia.
  - intros n Hn. rewrite length_firstn in Hn.
    rewrite nth_firstn.
    destruct (Nat.ltb_spec n (length bits)); [| lia].
    apply nth_unpack_pack.
Qed.

Lemma unpack_pack_padding (bits : list bool) :
  skipn (length bits) (flat_map byte_bits (packBitsToString bits))
  = repeat false (8 * byte_count bits - length bits).
Proof.
  apply nth_ext with (d := false) (d' := false).
  - rewrite length_skipn, length_unpacked, length_packBitsToString,
      repeat_length. reflexivity.
  - intros n _. rewrite nth_skipn, nth_unpack_pack, nth_repeat.
    apply nth_overflow. lia.
Qed.

(** ** The response codec *)

Lemma response_encode_ok (bits : list bool) :
  (byte_count bits <= 255)%nat ->
  exists n,
    ord n = Z.of_nat (byte_count bits)
    /\ ReadBitsResponseBase.encode (ReadBitsResponseBase.Build bits)
       = Ok (n :: packBitsToString bits).
Proof.
  intros Hbc. unfold ReadBitsResponseBase.encode.
  cbn [ReadBitsResponseBase.bits]. rewrite length_packBitsToString.
  destruct (chr_ok (Z.of_nat (byte_count bits))) as (n & En & Hn); [lia |].
  exists n. rewrite En. split; [assumption | reflexivity].
Qed.

Lemma response_decode_packed (self : ReadBitsResponseBase.t) (n : byte)
  (data : list byte) :
  ord n = Z.of_nat (length data) ->
  ReadBitsResponseBase.decode self (n :: data)
  = Ok (ReadBitsResponseBase.Build (flat_map byte_bits data)).
Proof.
  intros Hn. unfold ReadBitsResponseBase.decode, unpackBitsFromString.
  rewrite Hn, Nat2Z.id, Nat.ltb_irrefl, firstn_all. reflexivity.
Qed.

(** C7.  For every count in [1, 2000] and every sequence of that many
    bits, the response [encode] succeeds, and the response [decode] of its
    output, on a response object in any prior state, succeeds with a
    sequence whose first [count] elements are the given bits.  The decoded
    sequence is not cut to [count]: it has eight bits for each data byte,
    and the ones after the first [count] are the zero padding. *)
Theorem response_encode_decode (count : Z) (bits : list bool)
  (self0 : ReadBitsResponseBase.t) :
  1 <= count <= 2000 ->
  Z.of_nat (length bits) = count ->
  exists data decoded,
    ReadBitsResponseBase.encode (ReadBitsResponseBase.Build bits) = Ok data
    /\ ReadBitsResponseBase.decode self0 data = Ok decoded
    /\ firstn (Z.to_nat count) (ReadBitsResponseBase.bits decoded) = bits
    /\ length (ReadBitsResponseBase.bits decoded) = (8 * byte_count bits)%nat
    /\ skipn (Z.to_nat count) (ReadBitsResponseBase.bits decoded)
       = repeat false (8 * byte_count bits - Z.to_nat count).
Proof.
  intros Hcount Hlen.
  pose proof (byte_count_ceil bits) as C.
  destruct (response_encode_ok bits) as (n & Hn & Henc); [lia |].
  exists (n :: packBitsToString bits),
    (ReadBitsResponseBase.Build (flat_map byte_bits (packBitsToString bits))).
  split; [exact Henc |].
  split.
  { apply response_decode_packed.
    rewrite length_packBitsToString. exact Hn. }
  cbn [ReadBitsResponseBase.bits].
  replace (Z.to_nat count) with (length bits) by lia.
  split; [apply unpack_pack_prefix |].
  split; [rewrite length_unpacked, length_packBitsToString; reflexivity |].
  apply unpack_pack_padding.
Qed.

Lemma response_encode_decode_witness :
  exists data decoded,
    ReadBitsResponseBase.encode
      (ReadBitsResponseBase.Build [true; false; true; true; false]) = Ok data
    /\ ReadBitsResponseBase.decode (ReadBitsResponseBase.Build []) data
       = Ok decoded
    /\ firstn (Z.to_nat 5) (ReadBitsResponseBase.bits decoded)
       = [true; false; true; true; false]
    /\ length (ReadBitsResponseBase.bits decoded)
       = (8 * byte_count [true; false; true; true; false])%nat
    /\ skipn (Z.to_nat 5) (ReadBitsResponseBase.bits decoded)
       = repeat false
           (8 * byte_count [true; false; true; true; false] - Z.to_nat 5).
Proof.
  apply (response_encode_decode 5 [true; false; true; true; false]
           (ReadBitsResponseBase.Build [])).
  - lia.
  - reflexivity.
Defined.

(** C8.  For every sequence of 1 to 2040 bits, the response [encode]
    returns a first byte equal to ceil(len(bits)/8) followed by that many
    data bytes.  The bit at logical position p is bit (p mod 8) of data
    byte (p div 8), and the bits of the last byte above the last position
    are zero.  For [true, false, true] the output is a byte count of 1 and
    one data byte of value 5. *)
Theorem response_encode_layout (bits : list bool) :
  ReadBitsResponseBase.encode
    (ReadBitsResponseBase.Build [true; false; true]) = Ok [x01; x05]
  /\ ((1 <= length bits <= 2040)%nat ->
      exists n data,
        ReadBitsResponseBase.encode (ReadBitsResponseBase.Build bits)
          = Ok (n :: data)
        /\ ord n = (Z.of_nat (length bits) + 7) / 8
        /\ Z.of_nat (length data) = ord n
        /\ (length bits <= 8 * length data < length bits + 8)%nat
        /\ (forall p, (p < length bits)%nat ->
              Z.testbit (ord (nth (p / 8) data x00)) (Z.of_nat (p mod 8))
              = nth p bits false)
        /\ (forall p, (length bits <= p < 8 * length data)%nat ->
              Z.testbit (ord (nth (p / 8) data x00)) (Z.of_nat (p mod 8))
              = false)).
Proof.
  split; [reflexivity |]. intros Hlen.
  pose proof (byte_count_ceil bits) as C.
  destruct (response_encode_ok bits) as (n & Hn & Henc); [lia |].
  exists n, (packBitsToString bits).
  rewrite length_packBitsToString.
  assert (Hbit : forall p, (p < 8 * byte_count bits)%nat ->
            Z.testbit (ord (nth (p / 8) (packBitsToString bits) x00))
                      (Z.of_nat (p mod 8))
            = nth p bits false).
  { intros p Hp.
    pose proof (Nat.div_mod_eq p 8) as E.
    pose proof (Nat.mod_upper_bound p 8) as M.
    rewrite packed_bit by lia. f_equal. lia. }
  split; [exact Henc |].
  split.
  { rewrite Hn. unfold byte_count.
    rewrite Nat2Z.inj_div, Nat2Z.inj_add. reflexivity. }
  split; [symmetry; exact Hn |].
  split; [exact C |].
  split.
  - intros p Hp. apply Hbit. lia.
  - intros p Hp. rewrite Hbit by lia. apply nth_overflow. lia.
Qed.

Lemma response_encode_layout_witness :
  exists n data,
    ReadBitsResponseBase.encode
      (ReadBitsResponseBase.Build
         [true; false; true; true; false; false; false; false; true])
      = Ok (n :: data)
    /\ ord n = (Z.of_nat 9 + 7) / 8
    /\ Z.of_nat (length data) = ord n
    /\ (9 <= 8 * length data < 9 + 8)%nat
    /\ (forall p, (p < 9)%nat ->
          Z.testbit (ord (nth (p / 8) data x00)) (Z.of_nat (p mod 8))
          = nth p [true; false; true; true; false; false; false; false; true]
              false)
    /\ (forall p, (9 <= p < 8 * length data)%nat ->
          Z.testbit (ord (nth (p / 8) data x00)) (Z.of_nat (p mod 8))
          = false).
Proof.
  apply (response_encode_layout
           [true; false; true; true; false; false; false; false; true]).
  simpl. lia.
Defined.

(** C10.  A response of either class built with no argument, or with
    [None], has the empty sequence as its bits, and its [encode] returns
    the single byte 0: a byte count of 0 and no data bytes. *)
Theorem response_without_values :
  ReadBitsResponseBase.bits ReadCoilsResponse.init_default = []
  /\ ReadBitsResponseBase.bits (ReadCoilsResponse.init None) = []
  /\ ReadBitsResponseBase.bits ReadDiscreteInputsResponse.init_default = []
  /\ ReadBitsResponseBase.bits (ReadDiscreteInputsResponse.init None) = []
  /\ ReadBitsResponseBase.encode (ReadCoilsResponse.init None) = Ok [x00]
  /\ ReadBitsResponseBase.encode (ReadDiscreteInputsResponse.init None)
     = Ok [x00]
  /\ ord x00 = 0.
Proof.
  repeat split.
Qed.

(** ** List subscripts *)

Lemma list_index_inside {A} (l : list A) (i : Z) :
  - Z.of_nat (length l) <= i < Z.of_nat (length l) ->
  exists j, list_index l i = Ok j
            /\ (j < length l)%nat
            /\ Z.of_nat j = (if i <? 0 then i + Z.of_nat (length l) else i).
Proof.
  intros Hi. unfold list_index.
  set (n := Z.of_nat (length l)) in *.
  set (j := if i <? 0 then i + n else i).
  assert (Hj : 0 <= j < n) by (subst j; destruct (Z.ltb_spec i 0); lia).
  destruct (Z.ltb_spec j 0); [lia |].
  destruct (Z.leb_spec n j); [lia |]. cbn [orb].
  exists (Z.to_nat j). split; [reflexivity |]. split; lia.
Qed.

Lemma list_index_outside {A} (l : list A) (i : Z) :
  ~ - Z.of_nat (length l) <= i < Z.of_nat (length l) ->
  list_index l i = Raise IndexError.
Proof.
  intros Hi. unfold list_index.
  set (n := Z.of_nat (length l)) in *.
  destruct (Z.ltb_spec i 0).
  - destruct (Z.ltb_spec (i + n) 0); [reflexivity |].
    destruct (Z.leb_spec n (i + n)); [reflexivity | lia].
  - destruct (Z.ltb_spec i 0); [lia |].
    destruct (Z.leb_spec n i); [reflexivity | lia].
Qed.

Lemma list_index_ok_inside {A} (l : list A) (i : Z) (j : nat) :
  list_index l i = Ok j ->
  - Z.of_nat (length l) <= i < Z.of_nat (length l).
Proof.
  intros H.
  destruct (Z_le_dec (- Z.of_nat (length l)) i) as [H1 |];
    [destruct (Z_lt_dec i (Z.of_nat (length l))) as [H2 |] |];
    try (split; assumption);
    rewrite list_index_outside in H by lia; discriminate.
Qed.

Lemma length_list_update {A} (l : list A) (j : nat) (v : A) :
  length (list_update l j v) = length l.
Proof.
  revert j. induction l as [| x r IH]; intros [| j]; cbn; auto.
Qed.

Lemma nth_error_list_update_eq {A} (l : list A) (j : nat) (v : A) :
  (j < length l)%nat -> nth_error (list_update l j v) j = Some v.
Proof.
  revert j. induction l as [| x r IH]; intros [| j] Hj; cbn in *;
    try lia; auto. apply IH. lia.
Qed.

Lemma nth_error_list_update_neq {A} (l : list A) (j k : nat) (v : A) :
  j <> k -> nth_error (list_update l j v) k = nth_error l k.
Proof.
  revert j k. induction l as [| x r IH]; intros [| j] [| k] Hjk; cbn;
    try reflexivity; try congruence. apply IH. congruence.
Qed.

Lemma list_update_twice {A} (l : list A) (j : nat) (v w : A) :
  list_update (list_update l j v) j w = list_update l j w.
Proof.
  revert j. induction l as [| x r IH]; intros [| j]; cbn; try reflexivity.
  f_equal. apply IH.
Qed.

Lemma list_update_comm {A} (l : list A) (j k : nat) (v w : A) :
  j <> k ->
  list_update (list_update l j v) k w = list_update (list_update l k w) j v.
Proof.
  revert j k. induction l as [| x r IH]; intros [| j] [| k] Hjk; cbn;
    try reflexivity; try congruence. f_equal. apply IH. congruence.
Qed.

Lemma list_update_same {A} (l : list A) (j : nat) (v : A) :
  nth_error l j = Some v -> list_update l j v = l.
Proof.
  revert j. induction l as [| x r IH]; intros [| j] H; cbn in *;
    try discriminate; try congruence. f_equal. apply IH. assumption.
Qed.

Lemma getitem_inside {A} (l : list A) (i : Z) (j : nat) :
  list_index l i = Ok j -> (j < length l)%nat ->
  exists x, nth_error l j = Some x /\ getitem l i = Ok x.
Proof.
  intros Hi Hj. unfold getitem. rewrite Hi. cbn [bind].
  destruct (nth_error l j) as [x |] eqn:E.
  - exists x. auto.
  - apply nth_error_None in E. lia.
Qed.

Lemma list_index_length {A B} (l : list A) (l' : list B) (i : Z) :
  length l = length l' -> list_index l i = list_index l' i.
Proof. intros H. unfold list_index. rewrite H. reflexivity. Qed.

(** ** [setBit], [resetBit], [getBit] *)

Lemma setBit_inv (self self' : ReadBitsResponseBase.t) (address value : Z) :
  ReadBitsResponseBase.setBit self address value = Ok self' ->
  exists j,
    list_index (ReadBitsResponseBase.bits self) address = Ok j
    /\ (j < length (ReadBitsResponseBase.bits self))%nat
    /\ ReadBitsResponseBase.bits self'
       = list_update (ReadBitsResponseBase.bits self) j (negb (value =? 0)).
Proof.
  unfold ReadBitsResponseBase.setBit, setitem. intros H.
  destruct (list_index (ReadBitsResponseBase.bits self) address) as [j | e]
    eqn:E; cbn [bind] in H; [| discriminate].
  injection H as <-. exists j. split; [reflexivity |]. split; [| reflexivity].
  destruct (list_index_inside _ _ (list_index_ok_inside _ _ _ E))
    as (j' & E' & Hj & _).
  congruence.
Qed.

(** The accessors accept an address exactly when it lies in
    [-len(bits), len(bits)): inside, [getBit] returns a bit and [setBit]
    returns the updated object; outside, both raise [IndexError].  On a
    response without bits every address is outside. *)
Theorem bit_access_bounds (self : ReadBitsResponseBase.t)
  (address value : Z) :
  let n := Z.of_nat (length (ReadBitsResponseBase.bits self)) in
  (- n <= address < n ->
     (exists b, ReadBitsResponseBase.getBit self address = Ok b)
     /\ (exists self', ReadBitsResponseBase.setBit self address value
                       = Ok self'))
  /\ (~ - n <= address < n ->
      ReadBitsResponseBase.getBit self address = Raise IndexError
      /\ ReadBitsResponseBase.setBit self address value = Raise IndexError)
  /\ (ReadBitsResponseBase.bits self = [] ->
      ReadBitsResponseBase.getBit self address = Raise IndexError
      /\ ReadBitsResponseBase.setBit self address value = Raise IndexError).
Proof.
  intros n.
  assert (Hout : ~ - n <= address < n ->
      ReadBitsResponseBase.getBit self address = Raise IndexError
      /\ ReadBitsResponseBase.setBit self address value = Raise IndexError).
  { intros Ha.
    unfold ReadBitsResponseBase.getBit, ReadBitsResponseBase.setBit,
      getitem, setitem.
    rewrite list_index_outside by exact Ha. split; reflexivity. }
  split; [| split; [exact Hout |]].
  - intros Ha.
    destruct (list_index_inside _ _ Ha) as (j & Ej & Hj & _).
    destruct (getitem_inside _ _ _ Ej Hj) as (x & _ & Hx).
    split; [exists x; exact Hx |].
    unfold ReadBitsResponseBase.setBit, setitem. rewrite Ej. cbn [bind].
    eexists. reflexivity.
  - intros Hnil. apply Hout. subst n. rewrite Hnil. cbn. lia.
Qed.

Lemma bit_access_bounds_witness :
  (exists b,
     ReadBitsResponseBase.getBit
       (ReadBitsResponseBase.Build [true; false; true]) (-3) = Ok b)
  /\ (exists self',
        ReadBitsResponseBase.setBit
          (ReadBitsResponseBase.Build [true; false; true]) (-3) 1 = Ok self').
Proof.
  apply (bit_access_bounds
           (ReadBitsResponseBase.Build [true; false; true]) (-3) 1).
  simpl. lia.
Defined.

(** After a successful [setBit(address, value)], [getBit(address)]
    returns whether [value] is non-zero, and the number of bits is what it
    was. *)
Theorem setBit_then_getBit (self self' : ReadBitsResponseBase.t)
  (address value : Z) :
  ReadBitsResponseBase.setBit self address value = Ok self' ->
  ReadBitsResponseBase.getBit self' address = Ok (negb (value =? 0))
  /\ length (ReadBitsResponseBase.bits self')
     = length (ReadBitsResponseBase.bits self).
Proof.
  intros H. destruct (setBit_inv _ _ _ _ H) as (j & Ej & Hj & Hb).
  rewrite Hb, length_list_update. split; [| reflexivity].
  unfold ReadBitsResponseBase.getBit, getitem. rewrite Hb.
  rewrite (list_index_length _ (ReadBitsResponseBase.bits self))
    by apply length_list_update.
  rewrite Ej. cbn [bind].
  rewrite nth_error_list_update_eq by exact Hj. reflexivity.
Qed.

Lemma setBit_then_getBit_witness :
  ReadBitsResponseBase.getBit
    (ReadBitsResponseBase.Build [false; true; false]) 1 = Ok (negb (7 =? 0))
  /\ length (ReadBitsResponseBase.bits
               (ReadBitsResponseBase.Build [false; true; false]))
     = length (ReadBitsResponseBase.bits
                 (ReadBitsResponseBase.Build [false; false; false])).
Proof.
  apply (setBit_then_getBit
           (ReadBitsResponseBase.Build [false; false; false])
           (ReadBitsResponseBase.Build [false; true; false]) 1 7).
  reflexivity.
Defined.

(** A successful [setBit(address, value)] changes one bit only: at every
    address that names another position, [getBit] answers as it did
    before, an [IndexError] included. *)
Theorem setBit_other_bits (self self' : ReadBitsResponseBase.t)
  (address value other : Z) :
  let n := Z.of_nat (length (ReadBitsResponseBase.bits self)) in
  ReadBitsResponseBase.setBit self address value = Ok self' ->
  other <> address -> other <> address + n -> other <> address - n ->
  ReadBitsResponseBase.getBit self' other
  = ReadBitsResponseBase.getBit self other.
Proof.
  intros n H H0 H1 H2.
  destruct (setBit_inv _ _ _ _ H) as (j & Ej & Hj & Hb).
  unfold ReadBitsResponseBase.getBit, getitem. rewrite Hb.
  rewrite (list_index_length _ (ReadBitsResponseBase.bits self))
    by apply length_list_update.
  destruct (list_index (ReadBitsResponseBase.bits self) other) as [k | e]
    eqn:Ek; cbn [bind]; [| reflexivity].
  rewrite nth_error_list_update_neq; [reflexivity |].
  destruct (list_index_inside _ _ (list_index_ok_inside _ _ _ Ej))
    as (j' & Ej' & _ & Pj).
  destruct (list_index_inside _ _ (list_index_ok_inside _ _ _ Ek))
    as (k' & Ek' & _ & Pk).
  assert (j' = j) by congruence. assert (k' = k) by congruence. subst j' k'.
  pose proof (list_index_ok_inside _ _ _ Ej).
  pose proof (list_index_ok_inside _ _ _ Ek).
  fold n in Pj, Pk.
  destruct (Z.ltb_spec address 0), (Z.ltb_spec other 0); lia.
Qed.

Lemma setBit_other_bits_witness :
  ReadBitsResponseBase.getBit
    (ReadBitsResponseBase.Build [false; true; false]) (-1)
  = ReadBitsResponseBase.getBit
      (ReadBitsResponseBase.Build [false; false; false]) (-1).
Proof.
  apply (setBit_other_bits
           (ReadBitsResponseBase.Build [false; false; false])
           (ReadBitsResponseBase.Build [false; true; false]) 1 7 (-1));
    simpl; try reflexivity; lia.
Defined.

(** A negative address in range names the same bit as that address plus
    the number of bits: both accessors behave alike on the two. *)
Theorem negative_address_counts_from_end (self : ReadBitsResponseBase.t)
  (address value : Z) :
  let n := Z.of_nat (length (ReadBitsResponseBase.bits self)) in
  - n <= address < 0 ->
  ReadBitsResponseBase.getBit self address
  = ReadBitsResponseBase.getBit self (address + n)
  /\ ReadBitsResponseBase.setBit self address value
     = ReadBitsResponseBase.setBit self (address + n) value.
Proof.
  intros n Ha.
  assert (E : list_index (ReadBitsResponseBase.bits self) address
              = list_index (ReadBitsResponseBase.bits self) (address + n)).
  { destruct (list_index_inside (ReadBitsResponseBase.bits self) address)
      as (j & Ej & _ & Pj); [fold n; lia |].
    destruct (list_index_inside (ReadBitsResponseBase.bits self) (address + n))
      as (k & Ek & _ & Pk); [fold n; lia |].
    fold n in Pj, Pk. rewrite Ej, Ek. f_equal.
    destruct (Z.ltb_spec address 0), (Z.ltb_spec (address + n) 0); lia. }
  unfold ReadBitsResponseBase.getBit, ReadBitsResponseBase.setBit,
    getitem, setitem.
  rewrite E. split; reflexivity.
Qed.

Lemma negative_address_counts_from_end_witness :
  ReadBitsResponseBase.getBit
    (ReadBitsResponseBase.Build [true; false; false]) (-3)
  = ReadBitsResponseBase.getBit
      (ReadBitsResponseBase.Build [true; false; false]) (-3 + 3)
  /\ ReadBitsResponseBase.setBit
       (ReadBitsResponseBase.Build [true; false; false]) (-3) 0
     = ReadBitsResponseBase.setBit
         (ReadBitsResponseBase.Build [true; false; false]) (-3 + 3) 0.
Proof.
  apply (negative_address_counts_from_end
           (ReadBitsResponseBase.Build [true; false; false]) (-3) 0).
  simpl. lia.
Defined.

Lemma setBit_unfold (self : ReadBitsResponseBase.t) (address value : Z)
  (j : nat) :
  list_index (ReadBitsResponseBase.bits self) address = Ok j ->
  ReadBitsResponseBase.setBit self address value
  = Ok (ReadBitsResponseBase.Build
          (list_update (ReadBitsResponseBase.bits self) j
             (negb (value =? 0)))).
Proof.
  intros E. unfold ReadBitsResponseBase.setBit, setitem. rewrite E.
  reflexivity.
Qed.

Lemma setBit_raises (self : ReadBitsResponseBase.t) (address value : Z)
  (e : error) :
  list_index (ReadBitsResponseBase.bits self) address = Raise e ->
  ReadBitsResponseBase.setBit self address value = Raise e.
Proof.
  intros E. unfold ReadBitsResponseBase.setBit, setitem. rewrite E.
  reflexivity.
Qed.

(** Of two [setBit] calls on the same address the later one decides:
    after a successful [setBit(address, v)], a further
    [setBit(address, w)] or [resetBit(address)] leaves the object as if
    the first call had not been made, and after the [resetBit] the bit
    reads false. *)
Theorem setBit_overwrites (self self1 : ReadBitsResponseBase.t)
  (address v w : Z) :
  ReadBitsResponseBase.setBit self address v = Ok self1 ->
  ReadBitsResponseBase.setBit self1 address w
  = ReadBitsResponseBase.setBit self address w
  /\ ReadBitsResponseBase.resetBit self1 address
     = ReadBitsResponseBase.resetBit self address
  /\ exists self0,
       ReadBitsResponseBase.resetBit self1 address = Ok self0
       /\ ReadBitsResponseBase.getBit self0 address = Ok false.
Proof.
  intros H. destruct (setBit_inv _ _ _ _ H) as (j & Ej & Hj & Hb).
  assert (Ej1 : list_index (ReadBitsResponseBase.bits self1) address = Ok j).
  { rewrite Hb, (list_index_length _ (ReadBitsResponseBase.bits self))
      by apply length_list_update. exact Ej. }
  assert (Hany : forall x,
            ReadBitsResponseBase.setBit self1 address x
            = ReadBitsResponseBase.setBit self address x).
  { intros x. rewrite (setBit_unfold self1 _ _ _ Ej1),
      (setBit_unfold self _ _ _ Ej), Hb, list_update_twice. reflexivity. }
  split; [apply Hany |]. split; [apply Hany |].
  unfold ReadBitsResponseBase.resetBit.
  rewrite (setBit_unfold self1 _ _ _ Ej1). eexists. split; [reflexivity |].
  unfold ReadBitsResponseBase.getBit, getitem.
  cbn [ReadBitsResponseBase.bits].
  rewrite (list_index_length _ (ReadBitsResponseBase.bits self1))
    by apply length_list_update.
  rewrite Ej1. cbn [bind].
  rewrite nth_error_list_update_eq; [reflexivity |].
  rewrite Hb, length_list_update. exact Hj.
Qed.

Lemma setBit_overwrites_witness :
  ReadBitsResponseBase.setBit
    (ReadBitsResponseBase.Build [false; true; false]) 1 0
  = ReadBitsResponseBase.setBit
      (ReadBitsResponseBase.Build [false; false; false]) 1 0
  /\ ReadBitsResponseBase.resetBit
       (ReadBitsResponseBase.Build [false; true; false]) 1
     = ReadBitsResponseBase.resetBit
         (ReadBitsResponseBase.Build [false; false; false]) 1
  /\ exists self0,
       ReadBitsResponseBase.resetBit
         (ReadBitsResponseBase.Build [false; true; false]) 1 = Ok self0
       /\ ReadBitsResponseBase.getBit self0 1 = Ok false.
Proof.
  apply (setBit_overwrites
           (ReadBitsResponseBase.Build [false; false; false])
           (ReadBitsResponseBase.Build [false; true; false]) 1 1 0).
  reflexivity.
Defined.

(** Two [setBit] calls on addresses that name different positions give
    the same outcome in either order: the same object when both
    addresses are in range, [IndexError] when one of them is not. *)
Theorem setBit_commutes (self : ReadBitsResponseBase.t) (a b v w : Z) :
  let n := Z.of_nat (length (ReadBitsResponseBase.bits self)) in
  b <> a -> b <> a + n -> b <> a - n ->
  (s <- ReadBitsResponseBase.setBit self a v ;;
   ReadBitsResponseBase.setBit s b w)
  = (s <- ReadBitsResponseBase.setBit self b w ;;
     ReadBitsResponseBase.setBit s a v).
Proof.
  intros n H0 H1 H2.
  destruct (list_index (ReadBitsResponseBase.bits self) a) as [j | ea] eqn:Ea;
    destruct (list_index (ReadBitsResponseBase.bits self) b) as [k | eb] eqn:Eb.
  - rewrite (setBit_unfold self a v j Ea), (setBit_unfold self b w k Eb).
    cbn [bind].
    erewrite !setBit_unfold;
      try (cbn [ReadBitsResponseBase.bits];
           rewrite (list_index_length _ (ReadBitsResponseBase.bits self))
             by apply length_list_update; eassumption).
    cbn [ReadBitsResponseBase.bits]. f_equal. f_equal.
    apply list_update_comm.
    destruct (list_index_inside _ _ (list_index_ok_inside _ _ _ Ea))
      as (j' & Ej' & _ & Pj).
    destruct (list_index_inside _ _ (list_index_ok_inside _ _ _ Eb))
      as (k' & Ek' & _ & Pk).
    assert (j' = j) by congruence. assert (k' = k) by congruence. subst j' k'.
    pose proof (list_index_ok_inside _ _ _ Ea).
    pose proof (list_index_ok_inside _ _ _ Eb).
    fold n in Pj, Pk.
    destruct (Z.ltb_spec a 0), (Z.ltb_spec b 0); lia.
  - rewrite (setBit_unfold self a v j Ea), (setBit_raises self b w eb Eb).
    cbn [bind]. apply setBit_raises. cbn [ReadBitsResponseBase.bits].
    rewrite (list_index_length _ (ReadBitsResponseBase.bits self))
      by apply length_list_update. exact Eb.
  - rewrite (setBit_raises self a v ea Ea), (setBit_unfold self b w k Eb).
    cbn [bind]. symmetry. apply setBit_raises. cbn [ReadBitsResponseBase.bits].
    rewrite (list_index_length _ (ReadBitsResponseBase.bits self))
      by apply length_list_update. exact Ea.
  - rewrite (setBit_raises self a v ea Ea), (setBit_raises self b w eb Eb).
    cbn [bind].
    rewrite list_index_outside in Ea, Eb;
      try (intros Hin;
           destruct (list_index_inside _ _ Hin) as (x & Ex & _); congruence).
    congruence.
Qed.

Lemma setBit_commutes_witness :
  (s <- ReadBitsResponseBase.setBit
          (ReadBitsResponseBase.Build [false; false; false]) 0 1 ;;
   ReadBitsResponseBase.setBit s (-1) 1)
  = (s <- ReadBitsResponseBase.setBit
            (ReadBitsResponseBase.Build [false; false; false]) (-1) 1 ;;
     ReadBitsResponseBase.setBit s 0 1).
Proof.
  apply (setBit_commutes
           (ReadBitsResponseBase.Build [false; false; false]) 0 (-1) 1 1);
    simpl; lia.
Defined.

(** Writing the value a bit already has changes nothing: when
    [getBit(address)] returns the truth value of [value <> 0],
    [setBit(address, value)] returns the object as it was. *)
Theorem setBit_same_value (self : ReadBitsResponseBase.t)
  (address value : Z) :
  ReadBitsResponseBase.getBit self address = Ok (negb (value =? 0)) ->
  ReadBitsResponseBase.setBit self address value = Ok self.
Proof.
  unfold ReadBitsResponseBase.getBit, getitem. intros H.
  destruct (list_index (ReadBitsResponseBase.bits self) address) as [j | e]
    eqn:Ej; cbn [bind] in H; [| discriminate].
  destruct (nth_error (ReadBitsResponseBase.bits self) j) as [x |] eqn:Ex;
    [| discriminate].
  injection H as ->.
  rewrite (setBit_unfold self _ _ _ Ej), (list_update_same _ _ _ Ex).
  destruct self; reflexivity.
Qed.

Lemma setBit_same_value_witness :
  ReadBitsResponseBase.setBit
    (ReadBitsResponseBase.Build [false; true; false]) (-2) 5
  = Ok (ReadBitsResponseBase.Build [false; true; false]).
Proof.
  apply (setBit_same_value
           (ReadBitsResponseBase.Build [false; true; false]) (-2) 5).
  reflexivity.
Defined.

(** ** The request codec, continued *)

Lemma ord_bounds (b : byte) : 0 <= ord b <= 255.
Proof.
  unfold ord. pose proof (Byte.to_N_bounded b) as H. lia.
Qed.

Lemma chr_ord (b : byte) : chr (ord b) = Ok b.
Proof.
  pose proof (ord_bounds b) as Hb. unfold chr.
  destruct (Z.ltb_spec (ord b) 0); [lia |].
  unfold ord. rewrite N2Z.id, Byte.of_to_N. reflexivity.
Qed.

Lemma pack_H_inv (v : Z) (l : list byte) :
  pack_H v = Ok l ->
  0 <= v <= 65535
  /\ exists hi lo, l = [hi; lo] /\ v = 256 * ord hi + ord lo.
Proof.
  intros H.
  assert (Hv : 0 <= v <= 65535).
  { unfold pack_H in H.
    destruct (Z.leb_spec 0 v), (Z.leb_spec v 65535);
      cbn [andb] in H; try discriminate. lia. }
  split; [exact Hv |].
  destruct (pack_H_ok v Hv) as (hi & lo & E & Hhi & Hlo).
  exists hi, lo. split; [congruence |].
  rewrite Hhi, Hlo. apply Z.div_mod. lia.
Qed.

Lemma pack_H_outside (v : Z) :
  ~ 0 <= v <= 65535 -> pack_H v = Raise struct_error.
Proof.
  intros Hv. unfold pack_H.
  destruct (Z.leb_spec 0 v), (Z.leb_spec v 65535); cbn [andb];
    try reflexivity; lia.
Qed.

Lemma pack_H_bytes (hi lo : byte) :
  pack_H (256 * ord hi + ord lo) = Ok [hi; lo].
Proof.
  pose proof (ord_bounds hi) as Hh. pose proof (ord_bounds lo) as Hl.
  destruct (pack_H_ok (256 * ord hi + ord lo)) as (x & y & E & Hx & Hy);
    [lia |].
  rewrite E.
  assert (Ex : ord x = ord hi).
  { rewrite Hx. symmetry. apply (Z.div_unique _ 256 _ (ord lo)); lia. }
  assert (Ey : ord y = ord lo).
  { rewrite Hy. symmetry. apply (Z.mod_unique _ 256 (ord hi)); lia. }
  pose proof (chr_ord x) as Cx. pose proof (chr_ord y) as Cy.
  rewrite Ex in Cx. rewrite Ey in Cy.
  rewrite chr_ord in Cx, Cy. congruence.
Qed.

Lemma request_encode_inv (r : ReadBitsRequestBase.t) (d : list byte) :
  ReadBitsRequestBase.encode r = Ok d ->
  exists b0 b1 b2 b3,
    d = [b0; b1; b2; b3]
    /\ ReadBitsRequestBase.address r = 256 * ord b0 + ord b1
    /\ ReadBitsRequestBase.count r = 256 * ord b2 + ord b3.
Proof.
  unfold ReadBitsRequestBase.encode, struct_pack_HH. intros H.
  destruct (pack_H (ReadBitsRequestBase.address r)) as [x |] eqn:Ea;
    cbn [bind] in H; [| discriminate].
  destruct (pack_H (ReadBitsRequestBase.count r)) as [y |] eqn:Ec;
    cbn [bind] in H; [| discriminate].
  injection H as <-.
  destruct (pack_H_inv _ _ Ea) as (_ & b0 & b1 & -> & Ha).
  destruct (pack_H_inv _ _ Ec) as (_ & b2 & b3 & -> & Hc).
  exists b0, b1, b2, b3. auto.
Qed.

(** The request [decode] followed by [encode] gives the input back:
    whenever [decode] accepts a byte string, [encode] of the decoded
    request returns that same string. *)
Theorem request_decode_encode (self r : ReadBitsRequestBase.t)
  (data : list byte) :
  ReadBitsRequestBase.decode self data = Ok r ->
  ReadBitsRequestBase.encode r = Ok data.
Proof.
  unfold ReadBitsRequestBase.decode. intros H.
  destruct data as [| b0 [| b1 [| b2 [| b3 [| x l]]]]];
    try discriminate.
  assert (E : r = ReadBitsRequestBase.Build (256 * ord b0 + ord b1)
                                            (256 * ord b2 + ord b3))
    by (unfold struct_unpack_HH in H; cbn [bind fst snd] in H; congruence).
  subst r. clear H.
  unfold ReadBitsRequestBase.encode, struct_pack_HH.
  cbn [ReadBitsRequestBase.address ReadBitsRequestBase.count fst snd].
  rewrite !pack_H_bytes. reflexivity.
Qed.

Lemma request_decode_encode_witness :
  ReadBitsRequestBase.encode (ReadBitsRequestBase.Build 19 37)
  = Ok [x00; x13; x00; x25].
Proof.
  apply (request_decode_encode (ReadBitsRequestBase.init 0 0)
           (ReadBitsRequestBase.Build 19 37) [x00; x13; x00; x25]).
  reflexivity.
Defined.

(** The request [encode] succeeds exactly when address and count are
    both in [0, 65535], whatever the count is inside that range (0 and
    values above 2000 included); otherwise it raises the error of
    [struct.pack]. *)
Theorem request_encode_range (r : ReadBitsRequestBase.t) :
  let a := ReadBitsRequestBase.address r in
  let c := ReadBitsRequestBase.count r in
  ((exists d, ReadBitsRequestBase.encode r = Ok d)
     <-> 0 <= a <= 65535 /\ 0 <= c <= 65535)
  /\ (~ (0 <= a <= 65535 /\ 0 <= c <= 65535) ->
      ReadBitsRequestBase.encode r = Raise struct_error).
Proof.
  intros a c.
  assert (Hout : ~ (0 <= a <= 65535 /\ 0 <= c <= 65535) ->
                 ReadBitsRequestBase.encode r = Raise struct_error).
  { intros Hn. unfold ReadBitsRequestBase.encode, struct_pack_HH.
    fold a c.
    destruct (Z_le_dec 0 a) as [A1 |];
      [destruct (Z_le_dec a 65535) as [A2 |] |];
      try (rewrite (pack_H_outside a) by lia; reflexivity).
    destruct (pack_H_ok a) as (x & y & E & _); [lia |]. rewrite E.
    cbn [bind]. rewrite (pack_H_outside c) by lia. reflexivity. }
  split; [| exact Hout]. split.
  - intros (d & Hd).
    destruct (Z_le_dec 0 a), (Z_le_dec a 65535), (Z_le_dec 0 c),
      (Z_le_dec c 65535); try lia;
      rewrite Hout in Hd by lia; discriminate.
  - intros (Ha & Hc).
    destruct (pack_H_ok a Ha) as (b0 & b1 & Ea & _).
    destruct (pack_H_ok c Hc) as (b2 & b3 & Ec & _).
    exists [b0; b1; b2; b3].
    unfold ReadBitsRequestBase.encode, struct_pack_HH. fold a c.
    rewrite Ea, Ec. reflexivity.
Qed.

Lemma request_encode_range_witness :
  ReadBitsRequestBase.encode (ReadBitsRequestBase.init 65536 1)
  = Raise struct_error.
Proof.
  apply (request_encode_range (ReadBitsRequestBase.init 65536 1)).
  simpl. lia.
Defined.

(** Whatever the request [decode] accepts, the address and the count it
    stores are in [0, 65535]. *)
Theorem request_decode_bounds (self r : ReadBitsRequestBase.t)
  (data : list byte) :
  ReadBitsRequestBase.decode self data = Ok r ->
  0 <= ReadBitsRequestBase.address r <= 65535
  /\ 0 <= ReadBitsRequestBase.count r <= 65535.
Proof.
  unfold ReadBitsRequestBase.decode. intros H.
  destruct data as [| b0 [| b1 [| b2 [| b3 [| x l]]]]];
    try discriminate.
  assert (E : r = ReadBitsRequestBase.Build (256 * ord b0 + ord b1)
                                            (256 * ord b2 + ord b3))
    by (unfold struct_unpack_HH in H; cbn [bind fst snd] in H; congruence).
  subst r. clear H.
  cbn [ReadBitsRequestBase.address ReadBitsRequestBase.count fst snd].
  pose proof (ord_bounds b0). pose proof (ord_bounds b1).
  pose proof (ord_bounds b2). pose proof (ord_bounds b3). lia.
Qed.

Lemma request_decode_bounds_witness :
  0 <= ReadBitsRequestBase.address (ReadBitsRequestBase.Build 65535 65535)
    <= 65535
  /\ 0 <= ReadBitsRequestBase.count (ReadBitsRequestBase.Build 65535 65535)
       <= 65535.
Proof.
  apply (request_decode_bounds (ReadBitsRequestBase.init 0 0)
           (ReadBitsRequestBase.Build 65535 65535) [xff; xff; xff; xff]).
  reflexivity.
Defined.

(** The request [encode] never returns anything but four bytes, and the
    bytes determine the request: two requests with the same encoding have
    the same address and count. *)
Theorem request_encode_injective (r1 r2 : ReadBitsRequestBase.t)
  (d : list byte) :
  ReadBitsRequestBase.encode r1 = Ok d ->
  ReadBitsRequestBase.encode r2 = Ok d ->
  length d = 4%nat /\ r1 = r2.
Proof.
  intros H1 H2.
  destruct (request_encode_inv _ _ H1) as (b0 & b1 & b2 & b3 & -> & A1 & C1).
  destruct (request_encode_inv _ _ H2) as (c0 & c1 & c2 & c3 & E & A2 & C2).
  injection E as <- <- <- <-.
  split; [reflexivity |].
  destruct r1, r2. cbn in *. congruence.
Qed.

Lemma request_encode_injective_witness :
  length [x00; x0a; x00; x05] = 4%nat
  /\ ReadBitsRequestBase.init 10 5 = ReadBitsRequestBase.Build 10 5.
Proof.
  apply (request_encode_injective (ReadBitsRequestBase.init 10 5)
           (ReadBitsRequestBase.Build 10 5) [x00; x0a; x00; x05]);
    reflexivity.
Defined.

(** ** The response codec, continued *)

(** Whatever the response [encode] returns starts with a length byte
    that counts the bytes after it, which are the packed bits; the output
    is never empty and never longer than 256 bytes.  [encode] raises only
    when the packed bits take more than 255 bytes, and then with the
    [ValueError] of [chr]. *)
Theorem response_encode_framing (self : ReadBitsResponseBase.t) :
  let packed := packBitsToString (ReadBitsResponseBase.bits self) in
  (forall out, ReadBitsResponseBase.encode self = Ok out ->
     exists n, out = n :: packed
               /\ ord n = Z.of_nat (length packed)
               /\ (1 <= length out <= 256)%nat)
  /\ (forall e, ReadBitsResponseBase.encode self = Raise e ->
        e = ValueError /\ (255 < length packed)%nat)
  /\ ((length packed <= 255)%nat ->
        exists out, ReadBitsResponseBase.encode self = Ok out).
Proof.
  intros packed. unfold ReadBitsResponseBase.encode. fold packed.
  destruct (Nat.le_gt_cases (length packed) 255) as [Hle | Hgt].
  - destruct (chr_ok (Z.of_nat (length packed))) as (n & En & Hn); [lia |].
    rewrite En. cbn [bind]. split; [| split].
    + intros out H. injection H as <-. exists n.
      pose proof (ord_bounds n). cbn [length]. repeat split; lia.
    + intros e H. discriminate.
    + intros _. eexists. reflexivity.
  - assert (E : chr (Z.of_nat (length packed)) = Raise ValueError).
    { unfold chr. destruct (Z.ltb_spec (Z.of_nat (length packed)) 0); [lia |].
      destruct (Byte.of_N (Z.to_N (Z.of_nat (length packed)))) as [b |] eqn:B;
        [| reflexivity].
      apply Byte.to_of_N in B. pose proof (Byte.to_N_bounded b). lia. }
    rewrite E. cbn [bind]. split; [| split].
    + intros out H. discriminate.
    + intros e H. injection H as <-. split; [reflexivity | lia].
    + intros H. lia.
Qed.

Lemma response_encode_framing_witness :
  exists out,
    ReadBitsResponseBase.encode
      (ReadBitsResponseBase.Build (repeat true 2040)) = Ok out.
Proof.
  apply (response_encode_framing
           (ReadBitsResponseBase.Build (repeat true 2040))).
  vm_compute. lia.
Defined.

(** With the packing of the specification, which takes ceil(len/8)
    bytes, the response [encode] succeeds exactly for up to 2040 bits and
    raises [ValueError] from 2041 bits on. *)
Theorem response_encode_limit (self : ReadBitsResponseBase.t) :
  let n := length (ReadBitsResponseBase.bits self) in
  ((exists out, ReadBitsResponseBase.encode self = Ok out)
     <-> (n <= 2040)%nat)
  /\ ((2040 < n)%nat ->
      ReadBitsResponseBase.encode self = Raise ValueError).
Proof.
  intros n.
  pose proof (byte_count_ceil (ReadBitsResponseBase.bits self)) as C.
  fold n in C.
  unfold ReadBitsResponseBase.encode.
  rewrite length_packBitsToString.
  set (k := byte_count (ReadBitsResponseBase.bits self)) in *.
  destruct (Nat.le_gt_cases n 2040) as [Hle | Hgt].
  - destruct (chr_ok (Z.of_nat k)) as (b & Eb & _); [lia |].
    rewrite Eb. cbn [bind]. split; [| lia].
    split; [intros _; exact Hle | intros _; eexists; reflexivity].
  - assert (E : chr (Z.of_nat k) = Raise ValueError).
    { unfold chr. destruct (Z.ltb_spec (Z.of_nat k) 0); [lia |].
      destruct (Byte.of_N (Z.to_N (Z.of_nat k))) as [b |] eqn:B;
        [| reflexivity].
      apply Byte.to_of_N in B. pose proof (Byte.to_N_bounded b). lia. }
    rewrite E. cbn [bind]. split; [| reflexivity].
    split; [intros (out & H); discriminate | lia].
Qed.

Lemma response_encode_limit_witness :
  ReadBitsResponseBase.encode
    (ReadBitsResponseBase.Build (repeat false 2041)) = Raise ValueError.
Proof.
  apply (response_encode_limit
           (ReadBitsResponseBase.Build (repeat false 2041))).
  vm_compute. reflexivity.
Defined.

(** ** [execute], continued *)

(** The calls [execute] makes into the context follow one of three
    patterns, and the pattern tells the outcome: no call at all, exactly
    when the answer is IllegalValue; one [validate], exactly when the
    answer is IllegalAddress; one [validate] followed by one [getValues],
    exactly when the answer is a response with bits.  Every call carries
    the request's own function code, address and count. *)
Theorem execute_call_pattern {S} (r : Request) (context : DataStoreContext S)
  (s : S) :
  let fc := request_function_code r in
  let address := ReadBitsRequestBase.address (request_fields r) in
  let count := ReadBitsRequestBase.count (request_fields r) in
  let out := run (execute r context) s in
  (calls (snd out) = []
   \/ calls (snd out) = [Call_validate fc address count]
   \/ calls (snd out)
      = [Call_validate fc address count; Call_getValues fc address count])
  /\ (calls (snd out) = []
      <-> response_exception (fst out) = Some IllegalValue)
  /\ (calls (snd out) = [Call_validate fc address count]
      <-> response_exception (fst out) = Some IllegalAddress)
  /\ (calls (snd out)
      = [Call_validate fc address count; Call_getValues fc address count]
      <-> response_exception (fst out) = None).
Proof.
  intros fc address count out. subst out. unfold run.
  rewrite execute_course. fold fc address count.
  cbn [store calls app].
  destruct ((1 <=? count) && (count <=? 2000));
    [destruct (fst (validate context fc address count s)) |];
    cbn [fst snd calls app]; rewrite ?response_for_not_exception;
    cbn [doException response_exception];
    (split; [auto |]); repeat split; intros H; try discriminate; auto.
Qed.

Lemma execute_call_pattern_witness :
  calls (snd (run (execute (ReadCoilsRequest_obj (ReadCoilsRequest.init 12 5))
                           block_context) example_store))
  = [Call_validate 1 12 5]
  <-> response_exception
        (fst (run (execute (ReadCoilsRequest_obj (ReadCoilsRequest.init 12 5))
                           block_context) example_store))
      = Some IllegalAddress.
Proof.
  apply (execute_call_pattern
           (ReadCoilsRequest_obj (ReadCoilsRequest.init 12 5))
           block_context example_store).
Defined.

(** The two [execute] methods differ in nothing but the function code
    they pass on and the class of the response: on a context that answers
    alike for function codes 1 and 2, a coils request and a discrete
    inputs request with the same address and count get the same bits or
    the same exception code, and leave the store in the same state. *)
Theorem execute_classes_alike {S} (self : ReadBitsRequestBase.t)
  (context : DataStoreContext S) (s : S) :
  let oc := run (execute (ReadCoilsRequest_obj self) context) s in
  let od := run (execute (ReadDiscreteInputsRequest_obj self) context) s in
  (forall a c st, validate context 1 a c st = validate context 2 a c st) ->
  (forall a c st, getValues context 1 a c st = getValues context 2 a c st) ->
  response_bits (fst oc) = response_bits (fst od)
  /\ response_exception (fst oc) = response_exception (fst od)
  /\ store (snd oc) = store (snd od).
Proof.
  intros oc od Hv Hg. subst oc od. unfold run.
  rewrite !execute_course.
  cbn [request_function_code request_fields store calls app].
  unfold ReadCoilsRequest.function_code,
    ReadDiscreteInputsRequest.function_code.
  rewrite <- !Hv.
  destruct ((1 <=? ReadBitsRequestBase.count self)
            && (ReadBitsRequestBase.count self <=? 2000));
    [| repeat split].
  destruct (fst (validate context 1 (ReadBitsRequestBase.address self)
                   (ReadBitsRequestBase.count self) s));
    [| repeat split].
  cbn [fst snd store]. rewrite <- !Hg.
  rewrite !response_for_bits, !response_for_not_exception.
  repeat split.
Qed.

Lemma execute_classes_alike_witness :
  response_bits
    (fst (run (execute (ReadCoilsRequest_obj (ReadBitsRequestBase.init 10 5))
                       block_context) example_store))
  = response_bits
      (fst (run (execute
                   (ReadDiscreteInputsRequest_obj
                      (ReadBitsRequestBase.init 10 5))
                   block_context) example_store))
  /\ response_exception
       (fst (run (execute
                    (ReadCoilsRequest_obj (ReadBitsRequestBase.init 10 5))
                    block_context) example_store))
     = response_exception
         (fst (run (execute
                      (ReadDiscreteInputsRequest_obj
                         (ReadBitsRequestBase.init 10 5))
                      block_context) example_store))
  /\ store (snd (run (execute
                        (ReadCoilsRequest_obj (ReadBitsRequestBase.init 10 5))
                        block_context) example_store))
     = store (snd (run (execute
                          (ReadDiscreteInputsRequest_obj
                             (ReadBitsRequestBase.init 10 5))
                          block_context) example_store)).
Proof.
  apply (execute_classes_alike (ReadBitsRequestBase.init 10 5)
           block_context example_store); reflexivity.
Defined.



(** ** From request to answer *)

Lemma execute_bits_inv {S} (r : Request) (context : DataStoreContext S)
  (s : S) (bits : list bool) :
  let fc := request_function_code r in
  let address := ReadBitsRequestBase.address (request_fields r) in
  let count := ReadBitsRequestBase.count (request_fields r) in
  response_bits (fst (run (execute r context) s)) = Some bits ->
  1 <= count <= 2000
  /\ fst (validate context fc address count s) = true
  /\ bits = fst (getValues context fc address count
                   (snd (validate context fc address count s))).
Proof.
  intros fc address count. unfold run. rewrite execute_course.
  fold fc address count. cbn [store calls app].
  case_count_check count; [| cbn; discriminate].
  destruct (fst (validate context fc address count s));
    cbn [fst snd store]; [| cbn; discriminate].
  rewrite response_for_bits. intros H. injection H as <-. auto.
Qed.

(** When the context returns as many bits as it is asked for, every
    response with bits that [execute] returns can be encoded: the check of
    the count against 2000 keeps the byte count, ceil(count/8) with the
    packing of the specification, between 1 and 250, so the [chr] of
    [encode] cannot raise. *)
Theorem execute_response_encodes {S} (r : Request)
  (context : DataStoreContext S) (s : S) (bits : list bool) :
  let count := ReadBitsRequestBase.count (request_fields r) in
  (forall fx a c st, 0 <= c ->
     Z.of_nat (length (fst (getValues context fx a c st))) = c) ->
  response_bits (fst (run (execute r context) s)) = Some bits ->
  exists n data,
    ReadBitsResponseBase.encode (ReadBitsResponseBase.Build bits)
      = Ok (n :: data)
    /\ ord n = (count + 7) / 8
    /\ 1 <= ord n <= 250
    /\ Z.of_nat (length data) = ord n.
Proof.
  intros count Hcontract Hbits.
  destruct (execute_bits_inv r context s bits Hbits) as (Hc & _ & Eb).
  fold count in Hc.
  assert (Hlen : Z.of_nat (length bits) = count)
    by (rewrite Eb; apply Hcontract; lia).
  pose proof (byte_count_ceil bits) as C.
  destruct (response_encode_ok bits) as (n & Hn & Henc); [lia |].
  exists n, (packBitsToString bits).
  rewrite length_packBitsToString.
  assert (En : ord n = (count + 7) / 8).
  { rewrite Hn, <- Hlen. unfold byte_count.
    rewrite Nat2Z.inj_div, Nat2Z.inj_add. reflexivity. }
  repeat split; try (exact Henc || exact En || lia).
Qed.

Lemma execute_response_encodes_witness :
  exists n data,
    ReadBitsResponseBase.encode
      (ReadBitsResponseBase.Build [false; true; false; true]) = Ok (n :: data)
    /\ ord n = (4 + 7) / 8
    /\ 1 <= ord n <= 250
    /\ Z.of_nat (length data) = ord n.
Proof.
  apply (execute_response_encodes
           (ReadDiscreteInputsRequest_obj (ReadDiscreteInputsRequest.init 3 4))
           table_context Z.even [false; true; false; true]).
  - intros fx a c st Hc. simpl. rewrite length_map, length_seq. lia.
  - reflexivity.
Defined.

(** The exchange of the module's docstring, end to end.  A client request
    of either class with a 16-bit address and a count in [1, 2000] is
    encoded; the server decodes the bytes into a request object of the
    same class, which then equals the client's, and executes it; when the
    context validates the range and returns [count] bits, the response is
    encoded and the client decodes it: the first [count] bits the client
    holds are the bits the context returned. *)
Theorem read_bits_exchange {S} (client_request server_request : Request)
  (client_response : ReadBitsResponseBase.t)
  (context : DataStoreContext S) (s : S) :
  let fc := request_function_code client_request in
  let address := ReadBitsRequestBase.address (request_fields client_request) in
  let count := ReadBitsRequestBase.count (request_fields client_request) in
  let values :=
    fst (getValues context fc address count
           (snd (validate context fc address count s))) in
  request_function_code server_request = fc ->
  0 <= address <= 65535 ->
  1 <= count <= 2000 ->
  fst (validate context fc address count s) = true ->
  Z.of_nat (length values) = count ->
  exists wire reply answer,
    request_encode client_request = Ok wire
    /\ request_decode server_request wire = Ok client_request
    /\ response_bits (fst (run (execute client_request context) s))
       = Some values
    /\ ReadBitsResponseBase.encode (ReadBitsResponseBase.Build values)
       = Ok reply
    /\ ReadBitsResponseBase.decode client_response reply = Ok answer
    /\ firstn (Z.to_nat count) (ReadBitsResponseBase.bits answer) = values.
Proof.
  intros fc address count values Hclass Ha Hc Hval Hlen.
  assert (Hwire : exists wire,
            ReadBitsRequestBase.encode (request_fields client_request)
              = Ok wire
            /\ forall self, ReadBitsRequestBase.decode self wire
                            = Ok (request_fields client_request)).
  { destruct (pack_H_ok address) as (b0 & b1 & Ea & A0 & A1); [lia |].
    destruct (pack_H_ok count) as (b2 & b3 & Ec & C0 & C1); [lia |].
    exists [b0; b1; b2; b3]. split.
    - unfold ReadBitsRequestBase.encode, struct_pack_HH.
      fold address count. rewrite Ea, Ec. reflexivity.
    - intros self. unfold ReadBitsRequestBase.decode, struct_unpack_HH.
      cbn [bind fst snd]. rewrite A0, A1, C0, C1.
      rewrite <- !Z.div_mod by lia. subst address count.
      destruct (request_fields client_request); reflexivity. }
  destruct Hwire as (wire & Henc & Hdec).
  pose proof (byte_count_ceil values) as C.
  destruct (response_encode_ok values) as (n & Hn & Hrenc); [lia |].
  exists wire, (n :: packBitsToString values),
    (ReadBitsResponseBase.Build
       (flat_map byte_bits (packBitsToString values))).
  split; [exact Henc |].
  split.
  { destruct client_request as [c | c], server_request as [v | v];
      cbn in Hclass; try discriminate;
      cbn [request_decode]; cbn [request_fields] in Hdec;
      rewrite Hdec; reflexivity. }
  split.
  { unfold run. rewrite execute_course. fold fc address count.
    cbn [store calls app]. apply count_check_spec in Hc.
    rewrite Hc, Hval. cbn [fst snd store]. apply response_for_bits. }
  split; [exact Hrenc |].
  split.
  { apply response_decode_packed. rewrite length_packBitsToString. exact Hn. }
  cbn [ReadBitsResponseBase.bits].
  replace (Z.to_nat count) with (length values) by lia.
  apply unpack_pack_prefix.
Qed.

Lemma read_bits_exchange_witness :
  exists wire reply answer,
    request_encode (ReadCoilsRequest_obj (ReadCoilsRequest.init 10 5))
      = Ok wire
    /\ request_decode (ReadCoilsRequest_obj (ReadCoilsRequest.init 0 0)) wire
       = Ok (ReadCoilsRequest_obj (ReadCoilsRequest.init 10 5))
    /\ response_bits
         (fst (run (execute (ReadCoilsRequest_obj (ReadCoilsRequest.init 10 5))
                            block_context) example_store))
       = Some [true; false; true; true; false]
    /\ ReadBitsResponseBase.encode
         (ReadBitsResponseBase.Build [true; false; true; true; false])
       = Ok reply
    /\ ReadBitsResponseBase.decode ReadCoilsResponse.init_default reply
       = Ok answer
    /\ firstn (Z.to_nat 5) (ReadBitsResponseBase.bits answer)
       = [true; false; true; true; false].
Proof.
  apply (read_bits_exchange
           (ReadCoilsRequest_obj (ReadCoilsRequest.init 10 5))
           (ReadCoilsRequest_obj (ReadCoilsRequest.init 0 0))
           ReadCoilsResponse.init_default block_context example_store);
    simpl; try reflexivity; lia.
Defined.

(** ** [__str__] of a request *)

Lemma append_split (c : Ascii.ascii) (u1 u2 v1 v2 : String.string) :
  free_of c u1 -> free_of c u2 ->
  String.append u1 (String.String c v1) = String.append u2 (String.String c v2) ->
  u1 = u2 /\ v1 = v2.
Proof.
  revert u2. induction u1 as [| a r IH]; intros [| b t] F1 F2 H;
    cbn in *.
  - split; congruence.
  - injection H as Hc _. destruct F2 as [Hb _]. congruence.
  - injection H as Hc _. destruct F1 as [Ha _]. congruence.
  - injection H as -> H. destruct F1 as [_ F1], F2 as [_ F2].
    destruct (IH t F1 F2 H) as [-> ->]. split; reflexivity.
Qed.

Lemma digits_free_of (c : Ascii.ascii) (d : Decimal.uint) :
  (c = "," \/ c = ")")%char ->
  free_of c (DecimalString.NilEmpty.string_of_uint d).
Proof.
  intros Hc. induction d; cbn; auto;
    (split; [destruct Hc as [-> | ->]; discriminate | assumption]).
Qed.

Lemma format_d_free_of (c : Ascii.ascii) (n : Z) :
  (c = "," \/ c = ")")%char -> free_of c (format_d n).
Proof.
  intros Hc.
  assert (U : forall d, free_of c (DecimalString.NilZero.string_of_uint d)).
  { intros d. pose proof (digits_free_of c d Hc) as H.
    destruct d; cbn; auto.
    split; [destruct Hc as [-> | ->]; discriminate | exact I]. }
  unfold format_d, DecimalString.NilZero.string_of_int.
  destruct (Z.to_int n); [apply U |].
  cbn. split; [destruct Hc as [-> | ->]; discriminate | apply U].
Qed.

Lemma format_d_inj (n m : Z) : format_d n = format_d m -> n = m.
Proof.
  unfold format_d. intros H.
  apply DecimalZ.to_int_inj.
  assert (P : forall z,
            DecimalString.NilZero.int_of_string
              (DecimalString.NilZero.string_of_int (Z.to_int z))
            = Some (Z.to_int z)).
  { intros z. apply DecimalString.NilZero.isi; destruct z; cbn;
      try discriminate;
      intros E; injection E as E;
      exact (DecimalPos.Unsigned.to_uint_nonnil _ E). }
  pose proof (P n) as Pn. rewrite H, P in Pn. congruence.
Qed.

Lemma append_prefix_inj (p x y : String.string) :
  String.append p x = String.append p y -> x = y.
Proof.
  induction p as [| a r IH]; cbn; intros H; [exact H |].
  injection H as H. apply IH. exact H.
Qed.

Example request_str_example :
  ReadBitsRequestBase.__str__ (ReadBitsRequestBase.init 10 2000)
  = "ReadBitRequest(10,2000)"%string.
Proof. reflexivity. Qed.

(** The text [__str__] returns determines the request: two request
    objects with the same text have the same address and the same
    count. *)
Theorem request_str_injective (r1 r2 : ReadBitsRequestBase.t) :
  ReadBitsRequestBase.__str__ r1 = ReadBitsRequestBase.__str__ r2 ->
  r1 = r2.
Proof.
  unfold ReadBitsRequestBase.__str__. intros H.
  apply append_prefix_inj in H.
  apply append_split in H;
    try (apply format_d_free_of; left; reflexivity).
  destruct H as [Ha H].
  change ")"%string with (String.String ")"%char String.EmptyString) in H.
  apply append_split in H;
    try (apply format_d_free_of; right; reflexivity).
  destruct H as [Hc _].
  apply format_d_inj in Ha. apply format_d_inj in Hc.
  destruct r1, r2. cbn in *. congruence.
Qed.

Lemma request_str_injective_witness :
  ReadBitsRequestBase.init 10 5 = ReadBitsRequestBase.Build 10 5.
Proof.
  apply (request_str_injective (ReadBitsRequestBase.init 10 5)
           (ReadBitsRequestBase.Build 10 5)).
  reflexivity.
Defined.

(** ** Reading bits of a decoded response *)

Lemma response_encode_inv (self : ReadBitsResponseBase.t) (out : list byte) :
  ReadBitsResponseBase.encode self = Ok out ->
  exists n,
    out = n :: packBitsToString (ReadBitsResponseBase.bits self)
    /\ ord n
       = Z.of_nat (length (packBitsToString (ReadBitsResponseBase.bits self))).
Proof.
  unfold ReadBitsResponseBase.encode. intros H.
  set (packed := packBitsToString (ReadBitsResponseBase.bits self)) in *.
  destruct (chr (Z.of_nat (length packed))) as [n |] eqn:E;
    cbn [bind] in H; [| discriminate].
  injection H as <-. exists n. split; [reflexivity |].
  unfold chr in E.
  destruct (Z.ltb_spec (Z.of_nat (length packed)) 0); [discriminate |].
  destruct (Byte.of_N (Z.to_N (Z.of_nat (length packed)))) as [b |] eqn:B;
    [| discriminate].
  injection E as ->. apply Byte.to_of_N in B. unfold ord. rewrite B. lia.
Qed.

(** A client that decodes an encoded response holds eight bits per data
    byte, with the packing of the specification: [getBit] returns the
    original bit at every address below [len(bits)], false rather than an
    [IndexError] at the padding addresses up to the next multiple of
    eight, and raises [IndexError] from there on. *)
Theorem getBit_of_decoded_response (self0 answer : ReadBitsResponseBase.t)
  (bits : list bool) (reply : list byte) (p : Z) :
  ReadBitsResponseBase.encode (ReadBitsResponseBase.Build bits) = Ok reply ->
  ReadBitsResponseBase.decode self0 reply = Ok answer ->
  0 <= p ->
  ReadBitsResponseBase.getBit answer p
  = if p <? 8 * Z.of_nat (byte_count bits)
    then Ok (nth (Z.to_nat p) bits false)
    else Raise IndexError.
Proof.
  intros Henc Hdec Hp.
  destruct (response_encode_inv _ _ Henc) as (n & -> & Hn).
  cbn [ReadBitsResponseBase.bits] in Hn, Hdec.
  rewrite (response_decode_packed self0 n _ Hn) in Hdec.
  injection Hdec as <-.
  unfold ReadBitsResponseBase.getBit, getitem.
  cbn [ReadBitsResponseBase.bits].
  set (l := flat_map byte_bits (packBitsToString bits)).
  assert (Hl : length l = (8 * byte_count bits)%nat)
    by (subst l; rewrite length_unpacked, length_packBitsToString;
        reflexivity).
  destruct (Z.ltb_spec p (8 * Z.of_nat (byte_count bits))) as [Hin | Hout].
  - destruct (list_index_inside l p) as (j & Ej & Hj & Pj); [lia |].
    rewrite Ej. cbn [bind].
    destruct (Z.ltb_spec p 0); [lia |].
    rewrite (nth_error_nth' l false Hj).
    replace (Z.to_nat p) with j by lia.
    subst l. rewrite nth_unpack_pack. reflexivity.
  - rewrite list_index_outside by lia. reflexivity.
Qed.

Lemma getBit_of_decoded_response_witness :
  ReadBitsResponseBase.getBit
    (ReadBitsResponseBase.Build
       [true; false; true; false; false; false; false; false]) 5
  = if 5 <? 8 * Z.of_nat (byte_count [true; false; true])
    then Ok (nth (Z.to_nat 5) [true; false; true] false)
    else Raise IndexError.
Proof.
  apply (getBit_of_decoded_response
           (ReadBitsResponseBase.Build [])
           (ReadBitsResponseBase.Build
              [true; false; true; false; false; false; false; false])
           [true; false; true] [x01; x05] 5).
  - reflexivity.
  - reflexivity.
  - lia.
Defined.
